(** * The OTLP trace exporter: lifecycle of [otlptrace.Exporter]

    A shallow embedding of [exporters/otlp/otlptrace/exporter.go]: the
    [Exporter] struct, its methods [ExportSpans], [Start] and [Shutdown], and
    the constructors [NewUnstartedExporter] and [NewExporter].

    The mutex [mu] and the two [sync.Once] gates are state of the exporter.
    Method bodies live in a state monad [M] over the exporter and the
    history of the client calls made through it; a lock operation that
    cannot proceed is the failure of [M].  The methods are given twice:

    - as whole calls ([Start], [Shutdown], [ExportSpans]), one call running
      to completion before the next begins; the claims about sequences of
      calls are stated on these, and the runs are shown never to get stuck;
    - statement by statement ([step]), for calls made concurrently whose
      statements interleave ([exec]); a call stepping alone does what the
      whole call does. *)

From Stdlib Require Import List Bool Arith ZArith Lia String.
Import ListNotations.

Set Implicit Arguments.

(** ** Go values *)

(** A non-nil value of the interface type [error]: the package's sentinel
    [errAlreadyStarted = errors.New("already started")], or any other error
    value, identified by its message. *)
Inductive errorValue : Type :=
| errAlreadyStarted
| errorString (msg : string).

(** The interface type [error]; [None] is [nil]. *)
Definition error : Type := option errorValue.

(** ** Package [sync] *)

(** The state of the synchronisation objects and their operations.  An
    operation returns [None] when the caller cannot proceed: it blocks, or
    the runtime aborts the program. *)

Module sync.

(** [sync.Mutex]. *)
Record Mutex : Type := mkMutex { locked : bool }.

(** [sync.Once]: [done] records that [Do] has run its function; [m] is the
    mutex that [Do] holds while it runs the function. *)
Record Once : Type := mkOnce { done : bool; m : Mutex }.

(** [sync.RWMutex]: held by one writer, or by [readers] readers. *)
Record RWMutex : Type := mkRWMutex { writer : bool; readers : nat }.

(** The zero values, as Go initialises struct fields. *)
Definition zeroMutex : Mutex := mkMutex false.
Definition zeroOnce : Once := mkOnce false zeroMutex.
Definition zeroRWMutex : RWMutex := mkRWMutex false 0.

(** [Mutex.Lock] proceeds only on an unlocked mutex; otherwise the caller
    blocks: [None]. *)
Definition Mutex_Lock (m : Mutex) : option Mutex :=
  if locked m then None else Some (mkMutex true).

(** [Mutex.Unlock] of an unlocked mutex is a fatal error. *)
Definition Mutex_Unlock (m : Mutex) : option Mutex :=
  if locked m then Some (mkMutex false) else None.

(** The three accesses [Once.Do] makes to its receiver besides loading
    [done]: [o.m.Lock()], [o.done.Store(1)] and [o.m.Unlock()]. *)
Definition Once_lock (o : Once) : option Once :=
  match Mutex_Lock (m o) with
  | Some m' => Some (mkOnce (done o) m')
  | None => None
  end.

Definition Once_store_done (o : Once) : option Once :=
  Some (mkOnce true (m o)).

Definition Once_unlock (o : Once) : option Once :=
  match Mutex_Unlock (m o) with
  | Some m' => Some (mkOnce (done o) m')
  | None => None
  end.

(** [RWMutex.Lock] proceeds only on a mutex nobody holds; otherwise the
    caller blocks: [None]. *)
Definition Lock (m : RWMutex) : option RWMutex :=
  if writer m || negb (readers m =? 0) then None
  else Some (mkRWMutex true (readers m)).

(** [Unlock] of a mutex that is not locked for writing is a fatal error. *)
Definition Unlock (m : RWMutex) : option RWMutex :=
  if writer m then Some (mkRWMutex false (readers m)) else None.

(** [RLock] proceeds unless a writer holds the mutex. *)
Definition RLock (m : RWMutex) : option RWMutex :=
  if writer m then None else Some (mkRWMutex false (S (readers m))).

(** [RUnlock] of a mutex that is not locked for reading is a fatal error. *)
Definition RUnlock (m : RWMutex) : option RWMutex :=
  match readers m with
  | 0 => None
  | S n => Some (mkRWMutex (writer m) n)
  end.

End sync.

(** ** Package [tracetransform] *)

Module tracetransform.
Section Spans.
Variables ReadOnlySpan WireRecord : Type.

(** The encoding of one trace record; [None] for an empty record, which
    contributes no wire record. *)
Variable span : ReadOnlySpan -> option WireRecord.

(** Modelled from the spec: [tracetransform.Spans], whose file is not part
    of the sources.  "Given a sequence of TraceRecord, produce a sequence
    of WireRecord of identical semantic content, order-preserving.  An
    empty input produces an empty output"; a non-empty input may still
    yield zero wire records, and N non-empty records yield N. *)
Fixpoint Spans (sdl : list ReadOnlySpan) : list WireRecord :=
  match sdl with
  | [] => []
  | sd :: rest =>
      match span sd with
      | Some w => w :: Spans rest
      | None => Spans rest
      end
  end.
End Spans.
End tracetransform.

(** ** The [Client] interface *)

(** Modelled from the spec: the [Client] interface, declared in a file that
    is not among the sources.  "Three operations: [Start(ctx) -> error],
    [UploadTraces(ctx, []WireRecord) -> error], [Stop(ctx) -> error]"; the
    exporter "makes no assumption about their internal behavior".  [C] is
    the state of the client object: a method returns its [error] result and
    the client's next state. *)
Class Client (Ctx WireRecord C : Type) : Type := {
  Client_Start : Ctx -> C -> error * C;
  Client_Stop : Ctx -> C -> error * C;
  Client_UploadTraces : Ctx -> list WireRecord -> C -> error * C
}.

(** ** The exporter and its observed history *)

(** [type Exporter struct]: the client, the mutex guarding [started], the
    flag, and the two one-shot gates. *)
Record Exporter (C : Type) : Type := mkExporter {
  client : C;
  mu : sync.RWMutex;
  started : bool;
  startOnce : sync.Once;
  stopOnce : sync.Once
}.

Arguments client {C} e.
Arguments mu {C} e.
Arguments started {C} e.
Arguments startOnce {C} e.
Arguments stopOnce {C} e.

(** A call that reached the client. *)
Inductive Call (Ctx WireRecord : Type) : Type :=
| CallStart (ctx : Ctx)
| CallUploadTraces (ctx : Ctx) (protoSpans : list WireRecord)
| CallStop (ctx : Ctx).

Arguments CallStart {Ctx WireRecord} ctx.
Arguments CallUploadTraces {Ctx WireRecord} ctx protoSpans.
Arguments CallStop {Ctx WireRecord} ctx.

(** A client call together with the value the exporter's [started] flag had
    at the moment the call was made. *)
Record Event (Ctx WireRecord : Type) : Type := mkEvent {
  call : Call Ctx WireRecord;
  started_at_call : bool
}.

(** The exporter object and the history of the client calls made through it
    (the history is ghost state: no method reads it). *)
Record Sys (Ctx WireRecord C : Type) : Type := mkSys {
  exp : Exporter C;
  calls : list (Event Ctx WireRecord)
}.

Definition is_Start {Ctx WireRecord} (ev : Event Ctx WireRecord) : bool :=
  match call ev with CallStart _ => true | _ => false end.

Definition is_Stop {Ctx WireRecord} (ev : Event Ctx WireRecord) : bool :=
  match call ev with CallStop _ => true | _ => false end.

Definition is_UploadTraces {Ctx WireRecord} (ev : Event Ctx WireRecord) : bool :=
  match call ev with CallUploadTraces _ _ => true | _ => false end.

(** How many recorded calls satisfy [p]. *)
Definition count {A : Type} (p : A -> bool) (l : list A) : nat :=
  List.length (filter p l).

(** The lifecycle states of the specification. *)
Inductive ControllerState : Type := Idle | Running | Stopped.

(** The operations a caller can perform on an exporter. *)
Inductive Op (Ctx ReadOnlySpan : Type) : Type :=
| OpStart (ctx : Ctx)
| OpExportSpans (ctx : Ctx) (ss : list ReadOnlySpan)
| OpShutdown (ctx : Ctx).

Arguments OpStart {Ctx ReadOnlySpan} ctx.
Arguments OpExportSpans {Ctx ReadOnlySpan} ctx ss.
Arguments OpShutdown {Ctx ReadOnlySpan} ctx.

Definition is_OpStart {Ctx ReadOnlySpan} (op : Op Ctx ReadOnlySpan) : bool :=
  match op with OpStart _ => true | _ => false end.

Definition is_OpShutdown {Ctx ReadOnlySpan} (op : Op Ctx ReadOnlySpan) : bool :=
  match op with OpShutdown _ => true | _ => false end.

(** One step of the lifecycle: the state before a call, the call, and the
    state after it. *)
Record Transition (Ctx ReadOnlySpan : Type) : Type := mkTransition {
  pre : option ControllerState;
  op : Op Ctx ReadOnlySpan;
  post : option ControllerState
}.

Definition is_state (st : ControllerState) (o : option ControllerState) : bool :=
  match o, st with
  | Some Idle, Idle | Some Running, Running | Some Stopped, Stopped => true
  | _, _ => false
  end.

(** The step enters [st]: it ends in [st] and did not begin there. *)
Definition enters {Ctx ReadOnlySpan} (st : ControllerState)
    (t : Transition Ctx ReadOnlySpan) : bool :=
  is_state st (post t) && negb (is_state st (pre t)).

(** The step leaves [st]: it begins in [st] and does not end there. *)
Definition leaves {Ctx ReadOnlySpan} (st : ControllerState)
    (t : Transition Ctx ReadOnlySpan) : bool :=
  is_state st (pre t) && negb (is_state st (post t)).

(** Some [Shutdown] comes after the first [Start] of the sequence. *)
Fixpoint shutdown_after_start {Ctx ReadOnlySpan} (ops : list (Op Ctx ReadOnlySpan)) : bool :=
  match ops with
  | [] => false
  | OpStart _ :: rest => existsb is_OpShutdown rest
  | _ :: rest => shutdown_after_start rest
  end.

(** The lifecycle state machine in the specification's words: [Idle] goes to
    [Running] on a start attempt, [Running] goes to [Stopped] on a shutdown,
    and nothing else changes the state. *)
Definition spec_next {Ctx ReadOnlySpan} (st : ControllerState)
    (o : Op Ctx ReadOnlySpan) : ControllerState :=
  match st, o with
  | Idle, OpStart _ => Running
  | Running, OpShutdown _ => Stopped
  | _, _ => st
  end.

(** A step of the specification's machine. *)
Definition spec_step {Ctx ReadOnlySpan} (t : Transition Ctx ReadOnlySpan) : Prop :=
  exists st, pre t = Some st /\ post t = Some (spec_next st (op t)).

(** The transitions the specification's machine makes from [st]. *)
Fixpoint spec_transitions {Ctx ReadOnlySpan} (st : ControllerState)
    (ops : list (Op Ctx ReadOnlySpan)) : list (Transition Ctx ReadOnlySpan) :=
  match ops with
  | [] => []
  | o :: rest =>
      mkTransition (Some st) o (Some (spec_next st o))
        :: spec_transitions (spec_next st o) rest
  end.

(** How many [Client.Start] calls the sequence [ops] causes from [st]. *)
Definition starts_from {Ctx ReadOnlySpan} (st : ControllerState)
    (ops : list (Op Ctx ReadOnlySpan)) : nat :=
  match st with
  | Idle => if existsb is_OpStart ops then 1 else 0
  | _ => 0
  end.

(** How many [Client.Stop] calls the sequence [ops] causes from [st]. *)
Definition stops_from {Ctx ReadOnlySpan} (st : ControllerState)
    (ops : list (Op Ctx ReadOnlySpan)) : nat :=
  match st with
  | Idle => if shutdown_after_start ops then 1 else 0
  | Running => if existsb is_OpShutdown ops then 1 else 0
  | Stopped => 0
  end.

Section Otlptrace.
Context {Ctx ReadOnlySpan WireRecord C : Type}.
Context {cl : Client Ctx WireRecord C}.

(** [tracetransform.Spans], a parameter of the exporter's methods. *)
Variable Spans : list ReadOnlySpan -> list WireRecord.

(** *** The monad of method bodies: state [Sys], failure for a stuck lock *)

Definition M (A : Type) : Type := Sys Ctx WireRecord C -> option (A * Sys Ctx WireRecord C).

Definition ret {A} (a : A) : M A := fun s => Some (a, s).

Definition bind {A B} (m : M A) (k : A -> M B) : M B :=
  fun s => match m s with
           | Some (a, s') => k a s'
           | None => None
           end.

Notation "x <- m ;; k" := (bind m (fun x => k))
  (at level 61, m at next level, right associativity).
Notation "m ;; k" := (bind m (fun _ => k))
  (at level 61, right associativity).

(** Field updates of the receiver [e]. *)
Definition with_client (c : C) (e : Exporter C) : Exporter C :=
  mkExporter c (mu e) (started e) (startOnce e) (stopOnce e).
Definition with_mu (m : sync.RWMutex) (e : Exporter C) : Exporter C :=
  mkExporter (client e) m (started e) (startOnce e) (stopOnce e).
Definition with_started (b : bool) (e : Exporter C) : Exporter C :=
  mkExporter (client e) (mu e) b (startOnce e) (stopOnce e).
Definition with_startOnce (o : sync.Once) (e : Exporter C) : Exporter C :=
  mkExporter (client e) (mu e) (started e) o (stopOnce e).
Definition with_stopOnce (o : sync.Once) (e : Exporter C) : Exporter C :=
  mkExporter (client e) (mu e) (started e) (startOnce e) o.

(** [e.mu.Lock()] and the like: apply a mutex operation to [e.mu]. *)
Definition on_mu (f : sync.RWMutex -> option sync.RWMutex) : M unit :=
  fun s => match f (mu (exp s)) with
           | Some m => Some (tt, mkSys (with_mu m (exp s)) (calls s))
           | None => None
           end.

(** [e.started = b] and the read of [e.started]. *)
Definition store_started (b : bool) : M unit :=
  fun s => Some (tt, mkSys (with_started b (exp s)) (calls s)).
Definition load_started : M bool :=
  fun s => Some (started (exp s), s).

(** A method call on [e.client]: the client moves to its next state and
    the call is recorded with the current value of [e.started]. *)
Definition on_client (c : Call Ctx WireRecord) (f : C -> error * C) : M error :=
  fun s => let r := f (client (exp s)) in
           Some (fst r, mkSys (with_client (snd r) (exp s))
                              (calls s ++ [mkEvent c (started (exp s))])).

(** An access to one of the two gates of [e]. *)
Definition on_gate
    (gate : Exporter C -> sync.Once) (with_gate : sync.Once -> Exporter C -> Exporter C)
    (f : sync.Once -> option sync.Once) : M unit :=
  fun s => match f (gate (exp s)) with
           | Some o => Some (tt, mkSys (with_gate o (exp s)) (calls s))
           | None => None
           end.

Definition load_done (gate : Exporter C -> sync.Once) : M bool :=
  fun s => Some (sync.done (gate (exp s)), s).

(** [once.Do(f)], as [sync.Once] implements it: return at once if [done]
    is set; otherwise lock [m], look at [done] again, run [f] if it is
    still unset, and on the way out store [done] and unlock [m].  [f] is a
    closure over the caller's local variables [L], which it may assign. *)
Definition Do {L : Type}
    (gate : Exporter C -> sync.Once) (with_gate : sync.Once -> Exporter C -> Exporter C)
    (f : L -> M L) (locals : L) : M L :=
  d <- load_done gate ;;
  if d then ret locals
  else
    on_gate gate with_gate sync.Once_lock ;;
    d <- load_done gate ;;
    if d then
      on_gate gate with_gate sync.Once_unlock ;;
      ret locals
    else
      locals' <- f locals ;;
      on_gate gate with_gate sync.Once_store_done ;;
      on_gate gate with_gate sync.Once_unlock ;;
      ret locals'.

(** *** The methods *)

(** [func (e *Exporter) ExportSpans(ctx, ss) error] *)
Definition ExportSpans (ctx : Ctx) (ss : list ReadOnlySpan) : M error :=
  let protoSpans := Spans ss in
  if List.length protoSpans =? 0 then ret None
  else on_client (CallUploadTraces ctx protoSpans) (Client_UploadTraces ctx protoSpans).

(** [func (e *Exporter) Start(ctx) error] *)
Definition Start (ctx : Ctx) : M error :=
  let err : error := Some errAlreadyStarted in
  err <- Do startOnce with_startOnce (fun _ : error =>
           on_mu sync.Lock ;;
           store_started true ;;
           on_mu sync.Unlock ;;
           on_client (CallStart ctx) (Client_Start ctx)) err ;;
  ret err.

(** [func (e *Exporter) Shutdown(ctx) error] *)
Definition Shutdown (ctx : Ctx) : M error :=
  on_mu sync.RLock ;;
  started <- load_started ;;
  on_mu sync.RUnlock ;;
  if negb started then ret None
  else
    let err : error := None in
    err <- Do stopOnce with_stopOnce (fun _ : error =>
             err <- on_client (CallStop ctx) (Client_Stop ctx) ;;
             on_mu sync.Lock ;;
             store_started false ;;
             on_mu sync.Unlock ;;
             ret err) err ;;
    ret err.

(** [func NewUnstartedExporter(client Client) *Exporter] *)
Definition NewUnstartedExporter (client : C) : Exporter C :=
  mkExporter client sync.zeroRWMutex false sync.zeroOnce sync.zeroOnce.

(** A freshly constructed exporter, no client call made yet. *)
Definition fresh (client : C) : Sys Ctx WireRecord C :=
  mkSys (NewUnstartedExporter client) [].

(** [func NewExporter(ctx, client)]: the returned pair of an exporter and
    an error ([None] is the nil exporter, resp. the nil error), with the
    client calls made meanwhile. *)
Definition NewExporter (ctx : Ctx) (client : C)
  : option ((option (Exporter C) * error) * list (Event Ctx WireRecord)) :=
  match Start ctx (fresh client) with
  | Some (Some err, s) => Some ((None, Some err), calls s)
  | Some (None, s) => Some ((Some (exp s), None), calls s)
  | None => None
  end.

(** *** Sequences of calls *)

Definition perform (op : Op Ctx ReadOnlySpan) : M error :=
  match op with
  | OpStart ctx => Start ctx
  | OpExportSpans ctx ss => ExportSpans ctx ss
  | OpShutdown ctx => Shutdown ctx
  end.

(** Run the calls one after the other, collecting their results. *)
Fixpoint run (ops : list (Op Ctx ReadOnlySpan)) : M (list error) :=
  match ops with
  | [] => ret []
  | op :: rest =>
      r <- perform op ;;
      rs <- run rest ;;
      ret (r :: rs)
  end.

(** *** The lifecycle state read off the exporter's fields *)

(** No method is in progress on [e]: nobody holds [mu] or a gate's mutex. *)
Definition at_rest (e : Exporter C) : bool :=
  negb (sync.writer (mu e)) && (sync.readers (mu e) =? 0)
  && negb (sync.locked (sync.m (startOnce e)))
  && negb (sync.locked (sync.m (stopOnce e))).

(** The state of an exporter at rest: [Idle] before any [Start], [Running]
    once the start gate has fired and [started] is set, [Stopped] once the
    stop gate has fired and [started] is cleared.  Other field combinations
    are no lifecycle state. *)
Definition state_of (e : Exporter C) : option ControllerState :=
  if at_rest e then
    match started e, sync.done (startOnce e), sync.done (stopOnce e) with
    | false, false, false => Some Idle
    | true, true, false => Some Running
    | false, true, true => Some Stopped
    | _, _, _ => None
    end
  else None.

(** The exporter in lifecycle state [st] holding client state [c]. *)
Definition at_state (st : ControllerState) (c : C) : Exporter C :=
  match st with
  | Idle =>
      mkExporter c sync.zeroRWMutex false
                 (sync.mkOnce false sync.zeroMutex) (sync.mkOnce false sync.zeroMutex)
  | Running =>
      mkExporter c sync.zeroRWMutex true
                 (sync.mkOnce true sync.zeroMutex) (sync.mkOnce false sync.zeroMutex)
  | Stopped =>
      mkExporter c sync.zeroRWMutex false
                 (sync.mkOnce true sync.zeroMutex) (sync.mkOnce true sync.zeroMutex)
  end.

(** The lifecycle transitions of a run: for each call, the state before
    it, the call, and the state after it ([None] where the fields are no
    lifecycle state, or the call got stuck). *)
Fixpoint transitions (ops : list (Op Ctx ReadOnlySpan)) (s : Sys Ctx WireRecord C)
  : list (Transition Ctx ReadOnlySpan) :=
  match ops with
  | [] => []
  | op :: rest =>
      match perform op s with
      | Some (_, s') =>
          mkTransition (state_of (exp s)) op (state_of (exp s')) :: transitions rest s'
      | None => [mkTransition (state_of (exp s)) op None]
      end
  end.

End Otlptrace.

(** ** Concurrent callers *)

(** A call in progress: the statement the calling goroutine executes next,
    with its local variables.  The statements are those of [Start] and
    [Shutdown] with [Once.Do] inlined; each one makes one access to the
    exporter.  A call of [ExportSpans] makes its one access (the upload,
    if any) in one step.  A client method is one step: the history records
    that the call was made, whatever the client does meanwhile. *)
Inductive Thread (Ctx ReadOnlySpan : Type) : Type :=
| StartDo (ctx : Ctx)                  (* startOnce.Do: load done *)
| StartOnceLock (ctx : Ctx)            (* startOnce.m.Lock() *)
| StartOnceCheck (ctx : Ctx)           (* load done again *)
| StartMuLock (ctx : Ctx)              (* e.mu.Lock() *)
| StartStore (ctx : Ctx)               (* e.started = true *)
| StartMuUnlock (ctx : Ctx)            (* e.mu.Unlock() *)
| StartClient (ctx : Ctx)              (* err = e.client.Start(ctx) *)
| StartOnceDone (err : error)          (* startOnce.done.Store(1) *)
| StartOnceUnlock (err : error)        (* startOnce.m.Unlock(); return err *)
| ShutdownRLock (ctx : Ctx)            (* e.mu.RLock() *)
| ShutdownLoad (ctx : Ctx)             (* started := e.started *)
| ShutdownRUnlock (ctx : Ctx) (started : bool)
                                       (* e.mu.RUnlock(); if !started return nil *)
| ShutdownDo (ctx : Ctx)               (* stopOnce.Do: load done *)
| ShutdownOnceLock (ctx : Ctx)         (* stopOnce.m.Lock() *)
| ShutdownOnceCheck (ctx : Ctx)        (* load done again *)
| ShutdownClient (ctx : Ctx)           (* err = e.client.Stop(ctx) *)
| ShutdownMuLock (err : error)         (* e.mu.Lock() *)
| ShutdownStore (err : error)          (* e.started = false *)
| ShutdownMuUnlock (err : error)       (* e.mu.Unlock() *)
| ShutdownOnceDone (err : error)       (* stopOnce.done.Store(1) *)
| ShutdownOnceUnlock (err : error)     (* stopOnce.m.Unlock(); return err *)
| ExportSpansCall (ctx : Ctx) (ss : list ReadOnlySpan)
| Returned (err : error).

Arguments StartDo {Ctx ReadOnlySpan} ctx.
Arguments StartOnceLock {Ctx ReadOnlySpan} ctx.
Arguments StartOnceCheck {Ctx ReadOnlySpan} ctx.
Arguments StartMuLock {Ctx ReadOnlySpan} ctx.
Arguments StartStore {Ctx ReadOnlySpan} ctx.
Arguments StartMuUnlock {Ctx ReadOnlySpan} ctx.
Arguments StartClient {Ctx ReadOnlySpan} ctx.
Arguments StartOnceDone {Ctx ReadOnlySpan} err.
Arguments StartOnceUnlock {Ctx ReadOnlySpan} err.
Arguments ShutdownRLock {Ctx ReadOnlySpan} ctx.
Arguments ShutdownLoad {Ctx ReadOnlySpan} ctx.
Arguments ShutdownRUnlock {Ctx ReadOnlySpan} ctx started.
Arguments ShutdownDo {Ctx ReadOnlySpan} ctx.
Arguments ShutdownOnceLock {Ctx ReadOnlySpan} ctx.
Arguments ShutdownOnceCheck {Ctx ReadOnlySpan} ctx.
Arguments ShutdownClient {Ctx ReadOnlySpan} ctx.
Arguments ShutdownMuLock {Ctx ReadOnlySpan} err.
Arguments ShutdownStore {Ctx ReadOnlySpan} err.
Arguments ShutdownMuUnlock {Ctx ReadOnlySpan} err.
Arguments ShutdownOnceDone {Ctx ReadOnlySpan} err.
Arguments ShutdownOnceUnlock {Ctx ReadOnlySpan} err.
Arguments ExportSpansCall {Ctx ReadOnlySpan} ctx ss.
Arguments Returned {Ctx ReadOnlySpan} err.

(** The first statement of a call. *)
Definition spawn {Ctx ReadOnlySpan} (o : Op Ctx ReadOnlySpan) : Thread Ctx ReadOnlySpan :=
  match o with
  | OpStart ctx => StartDo ctx
  | OpExportSpans ctx ss => ExportSpansCall ctx ss
  | OpShutdown ctx => ShutdownRLock ctx
  end.

(** The two gates, and for each: the calls that hold its mutex, those that
    are inside its function before the client call, and those that have
    made the client call and not yet stored [done]. *)
Inductive Gate : Type := StartGate | StopGate.

Definition holds {Ctx ReadOnlySpan} (g : Gate) (t : Thread Ctx ReadOnlySpan) : bool :=
  match g, t with
  | StartGate, (StartOnceCheck _ | StartMuLock _ | StartStore _ | StartMuUnlock _
               | StartClient _ | StartOnceDone _ | StartOnceUnlock _) => true
  | StopGate, (ShutdownOnceCheck _ | ShutdownClient _ | ShutdownMuLock _
              | ShutdownStore _ | ShutdownMuUnlock _ | ShutdownOnceDone _
              | ShutdownOnceUnlock _) => true
  | _, _ => false
  end.

Definition before_call {Ctx ReadOnlySpan} (g : Gate) (t : Thread Ctx ReadOnlySpan) : bool :=
  match g, t with
  | StartGate, (StartMuLock _ | StartStore _ | StartMuUnlock _ | StartClient _) => true
  | StopGate, ShutdownClient _ => true
  | _, _ => false
  end.

Definition after_call {Ctx ReadOnlySpan} (g : Gate) (t : Thread Ctx ReadOnlySpan) : bool :=
  match g, t with
  | StartGate, StartOnceDone _ => true
  | StopGate, (ShutdownMuLock _ | ShutdownStore _ | ShutdownMuUnlock _
              | ShutdownOnceDone _) => true
  | _, _ => false
  end.

Definition is_call {Ctx WireRecord} (g : Gate) (ev : Event Ctx WireRecord) : bool :=
  match g with StartGate => is_Start ev | StopGate => is_Stop ev end.

Definition gate_of {C} (g : Gate) (e : Exporter C) : sync.Once :=
  match g with StartGate => startOnce e | StopGate => stopOnce e end.

(** Replace the element at index [i]. *)
Fixpoint replace_at {A} (i : nat) (x : A) (l : list A) : list A :=
  match l, i with
  | [], _ => []
  | _ :: rest, 0 => x :: rest
  | y :: rest, S j => y :: replace_at j x rest
  end.

(** The calls in progress and the exporter they share. *)
Record Config (Ctx ReadOnlySpan WireRecord C : Type) : Type := mkConfig {
  threads : list (Thread Ctx ReadOnlySpan);
  shared : Sys Ctx WireRecord C
}.

Section Interleaving.
Context {Ctx ReadOnlySpan WireRecord C : Type}.
Context {cl : Client Ctx WireRecord C}.
Variable Spans : list ReadOnlySpan -> list WireRecord.

Notation "x <- m ;; k" := (bind m (fun x => k))
  (at level 61, m at next level, right associativity).
Notation "m ;; k" := (bind m (fun _ => k))
  (at level 61, right associativity).

(** One statement of a call: its effect on the exporter and the statement
    that follows.  [None]: the call is blocked (or has returned). *)
Definition step (t : Thread Ctx ReadOnlySpan)
    : M (Ctx := Ctx) (WireRecord := WireRecord) (C := C) (Thread Ctx ReadOnlySpan) :=
  match t with
  | StartDo ctx =>
      d <- load_done startOnce ;;
      ret (if d then Returned (Some errAlreadyStarted) else StartOnceLock ctx)
  | StartOnceLock ctx =>
      on_gate startOnce with_startOnce sync.Once_lock ;; ret (StartOnceCheck ctx)
  | StartOnceCheck ctx =>
      d <- load_done startOnce ;;
      ret (if d then StartOnceUnlock (Some errAlreadyStarted) else StartMuLock ctx)
  | StartMuLock ctx => on_mu sync.Lock ;; ret (StartStore ctx)
  | StartStore ctx => store_started true ;; ret (StartMuUnlock ctx)
  | StartMuUnlock ctx => on_mu sync.Unlock ;; ret (StartClient ctx)
  | StartClient ctx =>
      err <- on_client (CallStart ctx) (Client_Start ctx) ;; ret (StartOnceDone err)
  | StartOnceDone err =>
      on_gate startOnce with_startOnce sync.Once_store_done ;; ret (StartOnceUnlock err)
  | StartOnceUnlock err =>
      on_gate startOnce with_startOnce sync.Once_unlock ;; ret (Returned err)
  | ShutdownRLock ctx => on_mu sync.RLock ;; ret (ShutdownLoad ctx)
  | ShutdownLoad ctx => started <- load_started ;; ret (ShutdownRUnlock ctx started)
  | ShutdownRUnlock ctx started =>
      on_mu sync.RUnlock ;;
      ret (if negb started then Returned None else ShutdownDo ctx)
  | ShutdownDo ctx =>
      d <- load_done stopOnce ;;
      ret (if d then Returned None else ShutdownOnceLock ctx)
  | ShutdownOnceLock ctx =>
      on_gate stopOnce with_stopOnce sync.Once_lock ;; ret (ShutdownOnceCheck ctx)
  | ShutdownOnceCheck ctx =>
      d <- load_done stopOnce ;;
      ret (if d then ShutdownOnceUnlock None else ShutdownClient ctx)
  | ShutdownClient ctx =>
      err <- on_client (CallStop ctx) (Client_Stop ctx) ;; ret (ShutdownMuLock err)
  | ShutdownMuLock err => on_mu sync.Lock ;; ret (ShutdownStore err)
  | ShutdownStore err => store_started false ;; ret (ShutdownMuUnlock err)
  | ShutdownMuUnlock err => on_mu sync.Unlock ;; ret (ShutdownOnceDone err)
  | ShutdownOnceDone err =>
      on_gate stopOnce with_stopOnce sync.Once_store_done ;; ret (ShutdownOnceUnlock err)
  | ShutdownOnceUnlock err =>
      on_gate stopOnce with_stopOnce sync.Once_unlock ;; ret (Returned err)
  | ExportSpansCall ctx ss => err <- ExportSpans Spans ctx ss ;; ret (Returned err)
  | Returned _ => fun _ => None
  end.


(** The call at index [i] executes its next statement. *)
Definition step_at (i : nat) (cfg : Config Ctx ReadOnlySpan WireRecord C)
    : option (Config Ctx ReadOnlySpan WireRecord C) :=
  match nth_error (threads cfg) i with
  | Some t =>
      match step t (shared cfg) with
      | Some (t', s') => Some (mkConfig (replace_at i t' (threads cfg)) s')
      | None => None
      end
  | None => None
  end.

(** An interleaving: the calls take their steps in the order [schedule]
    gives.  [None] if the schedule names a call that cannot step. *)
Fixpoint exec (schedule : list nat) (cfg : Config Ctx ReadOnlySpan WireRecord C)
    : option (Config Ctx ReadOnlySpan WireRecord C) :=
  match schedule with
  | [] => Some cfg
  | i :: rest =>
      match step_at i cfg with
      | Some cfg' => exec rest cfg'
      | None => None
      end
  end.

(** The calls [ops], all pending, on a fresh exporter. *)
Definition start_config (c : C) (ops : list (Op Ctx ReadOnlySpan))
    : Config Ctx ReadOnlySpan WireRecord C :=
  mkConfig (map spawn ops) (fresh c).

(** The accounting of gate [g]: the calls holding its mutex are as many as
    the mutex says; the client calls made through it are the one recorded
    by [done] or by a call about to store [done]; and once [done] is set no
    call is inside its function. *)
Definition gate_inv (g : Gate) (cfg : Config Ctx ReadOnlySpan WireRecord C) : Prop :=
  let o := gate_of g (exp (shared cfg)) in
  count (holds g) (threads cfg) = Nat.b2n (sync.locked (sync.m o))
  /\ count (is_call g) (calls (shared cfg))
     = Nat.b2n (sync.done o) + count (after_call g) (threads cfg)
  /\ (sync.done o = true ->
      count (before_call g) (threads cfg) + count (after_call g) (threads cfg) = 0).

End Interleaving.

(** ** Concurrent callers: locks, progress and results *)




Definition is_Returned {Ctx ReadOnlySpan} (t : Thread Ctx ReadOnlySpan) : bool :=
  match t with Returned _ => true | _ => false end.

(** The statements a call has left at most before it returns. *)
Definition steps_left {Ctx ReadOnlySpan} (t : Thread Ctx ReadOnlySpan) : nat :=
  match t with
  | StartDo _ => 9
  | StartOnceLock _ => 8
  | StartOnceCheck _ => 7
  | StartMuLock _ => 6
  | StartStore _ => 5
  | StartMuUnlock _ => 4
  | StartClient _ => 3
  | StartOnceDone _ => 2
  | StartOnceUnlock _ => 1
  | ShutdownRLock _ => 12
  | ShutdownLoad _ => 11
  | ShutdownRUnlock _ _ => 10
  | ShutdownDo _ => 9
  | ShutdownOnceLock _ => 8
  | ShutdownOnceCheck _ => 7
  | ShutdownClient _ => 6
  | ShutdownMuLock _ => 5
  | ShutdownStore _ => 4
  | ShutdownMuUnlock _ => 3
  | ShutdownOnceDone _ => 2
  | ShutdownOnceUnlock _ => 1
  | ExportSpansCall _ _ => 1
  | Returned _ => 0
  end.

Fixpoint total {A} (f : A -> nat) (l : list A) : nat :=
  match l with
  | [] => 0
  | x :: rest => f x + total f rest
  end.

Definition is_OpExportSpans {Ctx ReadOnlySpan} (o : Op Ctx ReadOnlySpan) : bool :=
  match o with OpExportSpans _ _ => true | _ => false end.

(** [t] is a statement of the method that [o] calls, or its return. *)
Definition statement_of {Ctx ReadOnlySpan} (o : Op Ctx ReadOnlySpan)
    (t : Thread Ctx ReadOnlySpan) : bool :=
  match o, t with
  | _, Returned _ => true
  | OpStart _, (StartDo _ | StartOnceLock _ | StartOnceCheck _ | StartMuLock _
               | StartStore _ | StartMuUnlock _ | StartClient _ | StartOnceDone _
               | StartOnceUnlock _) => true
  | OpShutdown _, (ShutdownRLock _ | ShutdownLoad _ | ShutdownRUnlock _ _
                  | ShutdownDo _ | ShutdownOnceLock _ | ShutdownOnceCheck _
                  | ShutdownClient _ | ShutdownMuLock _ | ShutdownStore _
                  | ShutdownMuUnlock _ | ShutdownOnceDone _ | ShutdownOnceUnlock _) => true
  | OpExportSpans _ _, ExportSpansCall _ _ => true
  | _, _ => false
  end.

Definition is_errAlreadyStarted (err : error) : bool :=
  match err with Some errAlreadyStarted => true | _ => false end.

Definition is_nil (err : error) : bool :=
  match err with None => true | Some _ => false end.

(** The result that makes a call of gate [g] stand out: for [Start],
    anything but [errAlreadyStarted]; for [Shutdown], a non-nil error. *)
Definition stands_out (g : Gate) (err : error) : bool :=
  match g with
  | StartGate => negb (is_errAlreadyStarted err)
  | StopGate => negb (is_nil err)
  end.

Definition calls_gate {Ctx ReadOnlySpan} (g : Gate) (o : Op Ctx ReadOnlySpan) : bool :=
  match g with StartGate => is_OpStart o | StopGate => is_OpShutdown o end.

(** The call of [o] holds, in its local variable [err], a result that
    stands out. *)
Definition carries {Ctx ReadOnlySpan} (g : Gate) (o : Op Ctx ReadOnlySpan)
    (t : Thread Ctx ReadOnlySpan) : bool :=
  calls_gate g o &&
  match t with
  | StartOnceDone err | StartOnceUnlock err
  | ShutdownMuLock err | ShutdownStore err | ShutdownMuUnlock err
  | ShutdownOnceDone err | ShutdownOnceUnlock err
  | Returned err => stands_out g err
  | _ => false
  end.

(** The call of [o] has returned a result that stands out. *)
Definition returned_standing_out {Ctx ReadOnlySpan} (g : Gate)
    (o : Op Ctx ReadOnlySpan) (t : Thread Ctx ReadOnlySpan) : bool :=
  calls_gate g o &&
  match t with Returned err => stands_out g err | _ => false end.

(** How many call/statement pairs satisfy [p]. *)
Fixpoint count2 {A B} (p : A -> B -> bool) (l1 : list A) (l2 : list B) : nat :=
  match l1, l2 with
  | x :: r1, y :: r2 => Nat.b2n (p x y) + count2 p r1 r2
  | _, _ => 0
  end.


(** The next statement of [t] can execute on exporter [e]: the lock it
    takes is free, the lock it releases is held. *)
Definition enabled {Ctx ReadOnlySpan C} (t : Thread Ctx ReadOnlySpan) (e : Exporter C) : bool :=
  match t with
  | StartOnceLock _ => negb (sync.locked (sync.m (startOnce e)))
  | ShutdownOnceLock _ => negb (sync.locked (sync.m (stopOnce e)))
  | StartOnceUnlock _ => sync.locked (sync.m (startOnce e))
  | ShutdownOnceUnlock _ => sync.locked (sync.m (stopOnce e))
  | StartMuLock _ | ShutdownMuLock _ =>
      negb (sync.writer (mu e)) && (sync.readers (mu e) =? 0)
  | StartMuUnlock _ | ShutdownMuUnlock _ => sync.writer (mu e)
  | ShutdownRLock _ => negb (sync.writer (mu e))
  | ShutdownRUnlock _ _ => negb (sync.readers (mu e) =? 0)
  | Returned _ => false
  | _ => true
  end.


(** The calls are statements of their methods, and the client results
    held in their local variables are no more than the client calls
    made. *)
Definition results_inv {Ctx ReadOnlySpan WireRecord C} (g : Gate)
    (ops : list (Op Ctx ReadOnlySpan))
    (cfg : Config Ctx ReadOnlySpan WireRecord C) : Prop :=
  Forall2 (fun o t => statement_of o t = true) ops (threads cfg)
  /\ count2 (carries g) ops (threads cfg) <= count (is_call g) (calls (shared cfg)).

(** The call is an [ExportSpans] that has not executed yet and whose
    transformed batch is not empty: it has an upload to make. *)
Definition upload_pending {Ctx ReadOnlySpan WireRecord}
    (Spans : list ReadOnlySpan -> list WireRecord) (t : Thread Ctx ReadOnlySpan) : bool :=
  match t with
  | ExportSpansCall _ ss => negb (List.length (Spans ss) =? 0)
  | _ => false
  end.

(** The call of [o] is a [Start] that is past the start gate: it is about
    to release the gate's mutex, or has returned. *)
Definition past_start_gate {Ctx ReadOnlySpan} (o : Op Ctx ReadOnlySpan)
    (t : Thread Ctx ReadOnlySpan) : bool :=
  is_OpStart o &&
  match t with
  | StartOnceUnlock _ | Returned _ => true
  | _ => false
  end.

(** The calls are statements of their methods, and if a [Start] call is
    past the start gate then the gate has fired. *)
Definition start_gate_inv {Ctx ReadOnlySpan WireRecord C}
    (ops : list (Op Ctx ReadOnlySpan))
    (cfg : Config Ctx ReadOnlySpan WireRecord C) : Prop :=
  Forall2 (fun o t => statement_of o t = true) ops (threads cfg)
  /\ (1 <= count2 past_start_gate ops (threads cfg) ->
      sync.done (startOnce (exp (shared cfg))) = true).

(** ** The exporter as a three-state machine over its client *)

Section Machine.
Context {Ctx ReadOnlySpan WireRecord C : Type}.
Context {cl : Client Ctx WireRecord C}.
Variable Spans : list ReadOnlySpan -> list WireRecord.

(** One call seen from outside, as a function of the lifecycle state and
    the client alone: the result returned, the next lifecycle state, the
    client's next state and the client calls made. *)
Definition machine_step (st : ControllerState) (c : C) (o : Op Ctx ReadOnlySpan)
    : error * ControllerState * C * list (Event Ctx WireRecord) :=
  match o with
  | OpStart ctx =>
      match st with
      | Idle => (fst (Client_Start ctx c), Running, snd (Client_Start ctx c),
                 [mkEvent (CallStart ctx) true])
      | _ => (Some errAlreadyStarted, st, c, [])
      end
  | OpExportSpans ctx ss =>
      match Spans ss with
      | [] => (None, st, c, [])
      | _ :: _ =>
          (fst (Client_UploadTraces ctx (Spans ss) c), st,
           snd (Client_UploadTraces ctx (Spans ss) c),
           [mkEvent (CallUploadTraces ctx (Spans ss)) (is_state Running (Some st))])
      end
  | OpShutdown ctx =>
      match st with
      | Running => (fst (Client_Stop ctx c), Stopped, snd (Client_Stop ctx c),
                    [mkEvent (CallStop ctx) true])
      | _ => (None, st, c, [])
      end
  end.

Fixpoint machine_run (st : ControllerState) (c : C) (ops : list (Op Ctx ReadOnlySpan))
    : list error * ControllerState * C * list (Event Ctx WireRecord) :=
  match ops with
  | [] => ([], st, c, [])
  | o :: rest =>
      match machine_step st c o with
      | (r, st1, c1, evs1) =>
          match machine_run st1 c1 rest with
          | (rs, st2, c2, evs2) => (r :: rs, st2, c2, evs1 ++ evs2)
          end
      end
  end.

(** The uploads the [ExportSpans] calls of [ops] ask for: one per call
    whose transformed batch is not empty, in the order of the calls. *)
Definition expected_uploads (ops : list (Op Ctx ReadOnlySpan))
    : list (Call Ctx WireRecord) :=
  flat_map (fun o => match o with
                     | OpExportSpans ctx ss =>
                         match Spans ss with
                         | [] => []
                         | _ :: _ => [CallUploadTraces ctx (Spans ss)]
                         end
                     | _ => []
                     end) ops.

(** The client after serving the calls [cs], one after the other. *)
Fixpoint replay (cs : list (Call Ctx WireRecord)) (c : C) : C :=
  match cs with
  | [] => c
  | CallStart ctx :: rest => replay rest (snd (Client_Start ctx c))
  | CallUploadTraces ctx ws :: rest => replay rest (snd (Client_UploadTraces ctx ws c))
  | CallStop ctx :: rest => replay rest (snd (Client_Stop ctx c))
  end.

End Machine.

(** ** The export pipeline *)

Section Pipeline.
Context {Ctx ReadOnlySpan WireRecord C : Type}.
Context {cl : Client Ctx WireRecord C}.

(** Modelled from the spec: the tracing SDK, which is not among the sources.
    The pipeline "wraps the controller as a generic batch consumer handed to
    a batching trace processor" and "optionally registers that processor as
    the process-wide default trace-producing facility".  [TracerProvider]
    is the SDK's provider; [NewBatchedProvider exp] stands for
    [tracesdk.NewTracerProvider(tracesdk.WithBatcher(exp))], a provider
    built over the exporter pointer [exp]. *)
Variable TracerProvider : Type.
Variable NewBatchedProvider : option (Exporter C) -> TracerProvider.

(** [func NewExportPipeline(ctx, client)]: the returned exporter, tracer
    provider and error ([None] is nil), with the client calls made. *)
Definition NewExportPipeline (ctx : Ctx) (client : C)
    : option ((option (Exporter C) * option TracerProvider * error)
              * list (Event Ctx WireRecord)) :=
  match NewExporter ctx client with
  | Some ((exp, err), evs) =>
      match err with
      | Some _ => Some ((None, None, err), evs)
      | None =>
          let tracerProvider := NewBatchedProvider exp in
          Some ((exp, Some tracerProvider, None), evs)
      end
  | None => None
  end.

(** [func InstallNewPipeline(ctx, client)].  [global] is the process-wide
    tracer provider that [otel.SetTracerProvider] assigns; the function
    returns its new value besides. *)
Definition InstallNewPipeline (ctx : Ctx) (client : C) (global : option TracerProvider)
    : option ((option (Exporter C) * option TracerProvider * error)
              * list (Event Ctx WireRecord) * option TracerProvider) :=
  match NewExportPipeline ctx client with
  | Some ((exp, tp, err), evs) =>
      match err with
      | Some _ => Some ((None, None, err), evs, global)
      | None => Some ((exp, tp, err), evs, tp)
      end
  | None => None
  end.

End Pipeline.

(** ** The instrumented example ([package stdout_test]) *)

Module stdout_test.

(** Go's [int64]: the integers of 64 bits two's complement, and the value
    an arithmetic result wraps around to. *)
Definition is_int64 (z : Z) : Prop := (- 2 ^ 63 <= z <= 2 ^ 63 - 1)%Z.

Definition wrap64 (z : Z) : Z := ((z + 2 ^ 63) mod 2 ^ 64 - 2 ^ 63)%Z.

(** [context.Context], as far as the example uses it: the span it carries,
    if any ([None] for [context.Background()]). *)
Definition Context : Type := option string.

(** A call made to the tracing and metrics API: [tracer.Start] with the
    span of the context it is given, [span.End], [Add] on a counter and
    [Record] on a value recorder with the span of their context. *)
Inductive Telemetry : Type :=
| TracerStart (spanName : string) (parent : Context)
| SpanEnd (spanName : string)
| CounterAdd (instrument : string) (ctx : Context) (incr : Z) (label : string * string)
| ValueRecord (instrument : string) (ctx : Context) (value : Z) (label : string * string).

Definition loopCounter : string := "function.loops".
Definition paramValue : string := "function.param".
Definition nameKey : string := "function.name".

(** [func add(ctx, x, y int64) int64], with the API calls it makes. *)
Definition add (ctx : Context) (x y : Z) : Z * list Telemetry :=
  let nameKV := (nameKey, "add"%string) in
  let ctx' : Context := Some "Addition"%string in
  (wrap64 (x + y),
   [TracerStart "Addition" ctx;
    CounterAdd loopCounter ctx' 1 nameKV;
    ValueRecord paramValue ctx' x nameKV;
    ValueRecord paramValue ctx' y nameKV;
    SpanEnd "Addition"]).

(** [func multiply(ctx, x, y int64) int64], with the API calls it makes. *)
Definition multiply (ctx : Context) (x y : Z) : Z * list Telemetry :=
  let nameKV := (nameKey, "multiply"%string) in
  let ctx' : Context := Some "Multiplication"%string in
  (wrap64 (x * y),
   [TracerStart "Multiplication" ctx;
    CounterAdd loopCounter ctx' 1 nameKV;
    ValueRecord paramValue ctx' x nameKV;
    ValueRecord paramValue ctx' y nameKV;
    SpanEnd "Multiplication"]).

(** What [Example] does, in order. *)
Inductive Action : Type :=
| InstallNewPipeline
| Tele (t : Telemetry)
| Println (msg : string) (value : Z)
| PusherStop
| TracerProviderShutdown
| Fatal (msg : string) (err : errorValue).

(** [func Example()].  The stdout exporter is not among the sources: the
    results of [stdout.InstallNewPipeline], [pusher.Stop] and
    [tracerProvider.Shutdown] are the parameters [install], [stop] and
    [shutdown].  [log.Fatal] ends the program. *)
Definition Example (install stop shutdown : error) : list Action :=
  InstallNewPipeline ::
  match install with
  | Some err => [Fatal "Could not initialize stdout exporter:" err]
  | None =>
      let ctx : Context := None in
      let m1 := multiply ctx 2 2 in
      let m2 := multiply ctx (fst m1) 10 in
      let a := add ctx (fst m2) 2 in
      map Tele (snd m1 ++ snd m2 ++ snd a)
      ++ Println "the answer is" (fst a)
      :: PusherStop
      :: match stop with
         | Some err => [Fatal "Could not stop stdout exporter:" err]
         | None =>
             TracerProviderShutdown
             :: match shutdown with
                | Some err => [Fatal "Could not stop stdout tracer:" err]
                | None => []
                end
         end
  end.

Definition is_TracerStart (a : Action) : bool :=
  match a with Tele (TracerStart _ _) => true | _ => false end.

Definition is_root_span (a : Action) : bool :=
  match a with Tele (TracerStart _ None) => true | _ => false end.

Definition is_Println (a : Action) : bool :=
  match a with Println _ _ => true | _ => false end.

(** The increment an action makes to the counter [function.loops]. *)
Definition loops (a : Action) : Z :=
  match a with
  | Tele (CounterAdd instrument _ incr _) =>
      if String.eqb instrument loopCounter then incr else 0%Z
  | _ => 0%Z
  end.

(** The spans open after the actions [l], innermost first, starting from
    [open]; [None] if a span is ended that is not the innermost open one. *)
Fixpoint open_spans (l : list Action) (open : list string) : option (list string) :=
  match l with
  | [] => Some open
  | Tele (TracerStart name _) :: rest => open_spans rest (name :: open)
  | Tele (SpanEnd name) :: rest =>
      match open with
      | top :: below => if String.eqb top name then open_spans rest below else None
      | [] => None
      end
  | _ :: rest => open_spans rest open
  end.

End stdout_test.

(** ** Concrete clients, for evaluating the methods *)

(** A client whose methods return fixed results; its state counts the calls
    it has served. *)
Definition fixedClient (start stop upload : error) : Client unit nat nat := {|
  Client_Start := fun _ n => (start, S n);
  Client_Stop := fun _ n => (stop, S n);
  Client_UploadTraces := fun _ _ n => (upload, S n)
|}.

(** A client whose three methods all succeed. *)
Definition okClient : Client unit nat nat := fixedClient None None None.

(** A client that connects and uploads, and fails to stop. *)
Definition stopFailingClient : Client unit nat nat :=
  fixedClient None (Some (errorString "stop failed")) None.

(** A client whose three methods all fail. *)
Definition failingClient : Client unit nat nat :=
  fixedClient (Some (errorString "connect failed"))
              (Some (errorString "stop failed"))
              (Some (errorString "upload failed")).

(** Trace records for the examples: a nil record is empty, any other one is
    encoded as its number. *)
Definition exampleSpan (r : option nat) : option nat := r.

Definition exampleSpans : list (option nat) -> list nat :=
  tracetransform.Spans exampleSpan.

(** A run of three concurrent calls, for evaluating the interleavings:
    the [Start] runs first; both [Shutdown] calls read [started]; the
    second one looks at the stop gate before the first one takes it. *)
Definition exampleOps : list (Op unit (option nat)) :=
  [OpStart tt; OpShutdown tt; OpShutdown tt].

(** Up to the point where the first [Shutdown] has called the client and
    the second waits for the gate. *)
Definition exampleScheduleMid : list nat :=
  repeat 0 9 ++ repeat 1 3 ++ repeat 2 3 ++ [2] ++ repeat 1 4.


(** Up to the end. *)
Definition exampleSchedule : list nat :=
  exampleScheduleMid ++ repeat 1 5 ++ repeat 2 3.

Definition exampleFinal : Config unit (option nat) nat nat :=
  mkConfig [Returned None; Returned (Some (errorString "stop failed")); Returned None]
           (mkSys (mkExporter 2 sync.zeroRWMutex false
                              (sync.mkOnce true sync.zeroMutex)
                              (sync.mkOnce true sync.zeroMutex))
                  [mkEvent (CallStart tt) true; mkEvent (CallStop tt) true]).

(** ** Properties *)

Section Properties.
Context {Ctx ReadOnlySpan WireRecord C : Type}.
Context {cl : Client Ctx WireRecord C}.
Variable Spans : list ReadOnlySpan -> list WireRecord.

(** Unfold a method body down to the client calls. *)
Ltac unfold_method :=
  unfold Start, Shutdown, ExportSpans, NewExporter, fresh, NewUnstartedExporter,
    Do, bind, ret, on_mu, on_gate, load_done, on_client, store_started, load_started,
    with_client, with_mu, with_started, with_startOnce, with_stopOnce;
  cbn.

(** *** The exporter at rest is one of three records *)

Lemma state_of_at_state (st : ControllerState) (c : C) :
  state_of (at_state st c) = Some st.
Proof. destruct st; reflexivity. Qed.

Lemma state_of_inv (e : Exporter C) (st : ControllerState) :
  state_of e = Some st -> e = at_state st (client e).
Proof.
  destruct e as [c [w r] b [d1 [m1]] [d2 [m2]]]; unfold state_of, at_rest; cbn.
  destruct w, r, m1, m2, b, d1, d2, st; intros H; try discriminate H; reflexivity.
Qed.

Lemma sys_at_state (s : Sys Ctx WireRecord C) (st : ControllerState) :
  state_of (exp s) = Some st ->
  s = mkSys (at_state st (client (exp s))) (calls s).
Proof.
  intros H. destruct s as [e h]; cbn in *.
  rewrite <- (state_of_inv _ H). reflexivity.
Qed.

(** *** What each method does in each lifecycle state *)

Lemma Start_Idle (ctx : Ctx) (c : C) (h : list (Event Ctx WireRecord)) :
  Start ctx (mkSys (at_state Idle c) h)
  = Some (fst (Client_Start ctx c),
          mkSys (at_state Running (snd (Client_Start ctx c)))
                (h ++ [mkEvent (CallStart ctx) true])).
Proof. unfold_method. destruct (Client_Start ctx c); reflexivity. Qed.

Lemma Start_again (ctx : Ctx) (st : ControllerState) (c : C)
    (h : list (Event Ctx WireRecord)) :
  st <> Idle ->
  Start ctx (mkSys (at_state st c) h)
  = Some (Some errAlreadyStarted, mkSys (at_state st c) h).
Proof. destruct st; intros H; [contradiction | reflexivity | reflexivity]. Qed.

Lemma Shutdown_Idle (ctx : Ctx) (c : C) (h : list (Event Ctx WireRecord)) :
  Shutdown ctx (mkSys (at_state Idle c) h) = Some (None, mkSys (at_state Idle c) h).
Proof. reflexivity. Qed.

Lemma Shutdown_Running (ctx : Ctx) (c : C) (h : list (Event Ctx WireRecord)) :
  Shutdown ctx (mkSys (at_state Running c) h)
  = Some (fst (Client_Stop ctx c),
          mkSys (at_state Stopped (snd (Client_Stop ctx c)))
                (h ++ [mkEvent (CallStop ctx) true])).
Proof. unfold_method. destruct (Client_Stop ctx c); reflexivity. Qed.

Lemma Shutdown_Stopped (ctx : Ctx) (c : C) (h : list (Event Ctx WireRecord)) :
  Shutdown ctx (mkSys (at_state Stopped c) h)
  = Some (None, mkSys (at_state Stopped c) h).
Proof. reflexivity. Qed.

(** [ExportSpans] in any state of the exporter, lifecycle state or not. *)
Lemma ExportSpans_eq (ctx : Ctx) (ss : list ReadOnlySpan) (s : Sys Ctx WireRecord C) :
  ExportSpans Spans ctx ss s
  = match Spans ss with
    | [] => Some (None, s)
    | _ :: _ =>
        Some (fst (Client_UploadTraces ctx (Spans ss) (client (exp s))),
              mkSys (with_client (snd (Client_UploadTraces ctx (Spans ss) (client (exp s))))
                                 (exp s))
                    (calls s ++ [mkEvent (CallUploadTraces ctx (Spans ss)) (started (exp s))]))
    end.
Proof.
  unfold ExportSpans, on_client, ret.
  destruct (Spans ss) as [|w ws]; cbn; [reflexivity|].
  destruct (Client_UploadTraces ctx (w :: ws) (client (exp s))); reflexivity.
Qed.

(** *** Counting recorded calls *)

Lemma count_app {A} (p : A -> bool) (l1 l2 : list A) :
  count p (l1 ++ l2) = count p l1 + count p l2.
Proof. unfold count. rewrite filter_app, length_app. reflexivity. Qed.

Lemma count_cons {A} (p : A -> bool) (x : A) (l : list A) :
  count p (x :: l) = (if p x then 1 else 0) + count p l.
Proof. unfold count; cbn. destruct (p x); reflexivity. Qed.

Lemma count_none {A} (p : A -> bool) (l : list A) :
  Forall (fun x => p x = false) l -> count p l = 0.
Proof.
  induction 1 as [|x l Hx _ IH]; [reflexivity|].
  rewrite count_cons, Hx, IH. reflexivity.
Qed.

(** *** One call, from a lifecycle state *)

Lemma perform_step (o : Op Ctx ReadOnlySpan) (s : Sys Ctx WireRecord C)
    (st : ControllerState) :
  state_of (exp s) = Some st ->
  exists r s',
    perform Spans o s = Some (r, s')
    /\ state_of (exp s') = Some (spec_next st o)
    /\ count is_Start (calls s') = count is_Start (calls s) + starts_from st [o]
    /\ count is_Stop (calls s') = count is_Stop (calls s) + stops_from st [o].
Proof.
  intros Hst. rewrite (sys_at_state s Hst).
  generalize (client (exp s)) (calls s); intros c h; clear s Hst.
  assert (Hn : forall n, n = n + 0) by (intros; lia).
  destruct o as [ctx | ctx ss | ctx]; cbn [perform].
  - destruct st;
      [rewrite Start_Idle | rewrite Start_again by discriminate
      | rewrite Start_again by discriminate];
      do 2 eexists; (split; [reflexivity|]); cbn [exp calls];
      rewrite ?count_app, ?state_of_at_state; cbn; auto.
  - rewrite ExportSpans_eq. destruct (Spans ss) as [|w ws];
      do 2 eexists; (split; [reflexivity|]); cbn [exp calls];
      rewrite ?count_app; destruct st; cbn; auto.
  - destruct st;
      [rewrite Shutdown_Idle | rewrite Shutdown_Running | rewrite Shutdown_Stopped];
      do 2 eexists; (split; [reflexivity|]); cbn [exp calls];
      rewrite ?count_app, ?state_of_at_state; cbn; auto.
Qed.

(** *** The specification's machine, call by call *)

Lemma starts_from_cons (st : ControllerState) (o : Op Ctx ReadOnlySpan)
    (rest : list (Op Ctx ReadOnlySpan)) :
  starts_from st (o :: rest) = starts_from st [o] + starts_from (spec_next st o) rest.
Proof.
  destruct st, o; cbn; try reflexivity;
    destruct (existsb is_OpStart rest); reflexivity.
Qed.

Lemma stops_from_cons (st : ControllerState) (o : Op Ctx ReadOnlySpan)
    (rest : list (Op Ctx ReadOnlySpan)) :
  stops_from st (o :: rest) = stops_from st [o] + stops_from (spec_next st o) rest.
Proof.
  destruct st, o; cbn; try reflexivity;
    destruct (existsb is_OpShutdown rest); reflexivity.
Qed.

Lemma spec_next_not_Idle (st : ControllerState) (ops : list (Op Ctx ReadOnlySpan)) :
  st <> Idle -> fold_left spec_next ops st <> Idle.
Proof.
  revert st. induction ops as [|o rest IH]; intros st H; cbn; [exact H|].
  apply IH. destruct st, o; cbn; congruence.
Qed.

Lemma spec_run_started (ops : list (Op Ctx ReadOnlySpan)) :
  existsb is_OpStart ops = true -> fold_left spec_next ops Idle <> Idle.
Proof.
  induction ops as [|o rest IH]; cbn; [discriminate|].
  destruct o; cbn; intros H; try (apply IH; exact H);
    apply spec_next_not_Idle; discriminate.
Qed.

Lemma spec_run_not_started (ops : list (Op Ctx ReadOnlySpan)) :
  existsb is_OpStart ops = false -> fold_left spec_next ops Idle = Idle.
Proof.
  induction ops as [|o rest IH]; cbn; [reflexivity|].
  destruct o; cbn; intros H; try discriminate H; apply IH; exact H.
Qed.

Lemma spec_run_Running (ops : list (Op Ctx ReadOnlySpan)) :
  existsb is_OpShutdown ops = false -> fold_left spec_next ops Running = Running.
Proof.
  induction ops as [|o rest IH]; cbn; [reflexivity|].
  destruct o; cbn; intros H; try discriminate H; apply IH; exact H.
Qed.

Lemma spec_run_Stopped (ops : list (Op Ctx ReadOnlySpan)) :
  fold_left spec_next ops Stopped = Stopped.
Proof. induction ops as [|o rest IH]; cbn; [reflexivity|]. destruct o; exact IH. Qed.

(** *** A sequence of calls, from a lifecycle state *)

(** The run never gets stuck, ends in the state the specification's
    machine reaches, and reaches the client's [Start] and [Stop] exactly
    as often as [starts_from] and [stops_from] say. *)
Lemma run_spec (ops : list (Op Ctx ReadOnlySpan)) :
  forall (s : Sys Ctx WireRecord C) (st : ControllerState),
    state_of (exp s) = Some st ->
    exists rs s',
      run Spans ops s = Some (rs, s')
      /\ List.length rs = List.length ops
      /\ state_of (exp s') = Some (fold_left spec_next ops st)
      /\ count is_Start (calls s') = count is_Start (calls s) + starts_from st ops
      /\ count is_Stop (calls s') = count is_Stop (calls s) + stops_from st ops.
Proof.
  induction ops as [|o rest IH]; intros s st Hst.
  - exists [], s. cbn. destruct st; cbn; repeat split; auto.
  - destruct (perform_step o s Hst) as (r & s1 & Hp & Hst1 & Hstart1 & Hstop1).
    destruct (IH s1 _ Hst1) as (rs & s2 & Hr & Hlen & Hst2 & Hstart2 & Hstop2).
    exists (r :: rs), s2. cbn [run]. unfold bind at 1. rewrite Hp.
    unfold bind at 1. rewrite Hr. unfold ret.
    rewrite starts_from_cons, stops_from_cons. cbn [List.length fold_left].
    repeat split; [congruence | exact Hst2 | lia | lia].
Qed.

Lemma transitions_spec (ops : list (Op Ctx ReadOnlySpan)) :
  forall (s : Sys Ctx WireRecord C) (st : ControllerState),
    state_of (exp s) = Some st ->
    transitions Spans ops s = spec_transitions st ops.
Proof.
  induction ops as [|o rest IH]; intros s st Hst; [reflexivity|].
  destruct (perform_step o s Hst) as (r & s1 & Hp & Hst1 & _).
  cbn [transitions spec_transitions]. rewrite Hp, Hst, Hst1.
  f_equal. apply IH. exact Hst1.
Qed.

(** *** Facts about the transitions of the specification's machine *)

Lemma spec_transitions_steps (ops : list (Op Ctx ReadOnlySpan)) :
  forall st, Forall spec_step (spec_transitions st ops).
Proof.
  induction ops as [|o rest IH]; intros st; cbn; constructor.
  - exists st. split; reflexivity.
  - apply IH.
Qed.

Lemma spec_transitions_ops (ops : list (Op Ctx ReadOnlySpan)) :
  forall st, map (@op Ctx ReadOnlySpan) (spec_transitions st ops) = ops.
Proof.
  induction ops as [|o rest IH]; intros st; cbn; [reflexivity|].
  rewrite IH. reflexivity.
Qed.

Lemma enters_Running_count (ops : list (Op Ctx ReadOnlySpan)) :
  forall st, count (enters Running) (spec_transitions st ops) = starts_from st ops.
Proof.
  induction ops as [|o rest IH]; intros st.
  - destruct st; reflexivity.
  - cbn [spec_transitions]. rewrite count_cons, IH, starts_from_cons.
    destruct st, o; reflexivity.
Qed.

Lemma enters_Stopped_count (ops : list (Op Ctx ReadOnlySpan)) :
  forall st, count (enters Stopped) (spec_transitions st ops) = stops_from st ops.
Proof.
  induction ops as [|o rest IH]; intros st.
  - destruct st; reflexivity.
  - cbn [spec_transitions]. rewrite count_cons, IH, stops_from_cons.
    destruct st, o; reflexivity.
Qed.

Lemma spec_step_enters_Running (t : Transition Ctx ReadOnlySpan) :
  spec_step t -> enters Running t = true ->
  pre t = Some Idle /\ is_OpStart (op t) = true.
Proof.
  destruct t as [p o q]; intros (st & Hp & Hq); cbn in *; subst p q.
  destruct st, o; cbn; intros H; try discriminate H; split; reflexivity.
Qed.

Lemma spec_step_enters_Stopped (t : Transition Ctx ReadOnlySpan) :
  spec_step t -> enters Stopped t = true ->
  pre t = Some Running /\ is_OpShutdown (op t) = true.
Proof.
  destruct t as [p o q]; intros (st & Hp & Hq); cbn in *; subst p q.
  destruct st, o; cbn; intros H; try discriminate H; split; reflexivity.
Qed.

Lemma spec_step_stays_Stopped (t : Transition Ctx ReadOnlySpan) :
  spec_step t -> leaves Stopped t = false.
Proof.
  destruct t as [p o q]; intros (st & Hp & Hq); cbn in *; subst p q.
  destruct st, o; reflexivity.
Qed.

(** C5.  The lifecycle of an exporter over any sequence of calls: it is
    [Idle] at construction; every call is a step of the specification's
    three-state machine (so no call gets stuck); the state becomes
    [Running] exactly once if the sequence has a [Start], and never
    otherwise, and does so from [Idle] on a [Start]; it becomes [Stopped]
    exactly once if a [Shutdown] follows the first [Start], and never
    otherwise, and does so from [Running] on a [Shutdown]; and no call
    leaves [Stopped]. *)
Theorem lifecycle_state_machine (c : C) (ops : list (Op Ctx ReadOnlySpan)) :
  let ts := transitions Spans ops (fresh c) in
  state_of (NewUnstartedExporter c) = Some Idle
  /\ map (@op Ctx ReadOnlySpan) ts = ops
  /\ Forall (fun t => exists st, pre t = Some st /\ post t = Some (spec_next st (op t))) ts
  /\ count (enters Running) ts = (if existsb is_OpStart ops then 1 else 0)
  /\ Forall (fun t => enters Running t = true ->
                      pre t = Some Idle /\ is_OpStart (op t) = true) ts
  /\ count (enters Stopped) ts = (if shutdown_after_start ops then 1 else 0)
  /\ Forall (fun t => enters Stopped t = true ->
                      pre t = Some Running /\ is_OpShutdown (op t) = true) ts
  /\ count (leaves Stopped) ts = 0.
Proof.
  cbv zeta.
  rewrite (transitions_spec ops (fresh c) (st := Idle)) by reflexivity.
  pose proof (spec_transitions_steps ops Idle) as Hsteps.
  repeat split.
  - apply spec_transitions_ops.
  - exact Hsteps.
  - apply (enters_Running_count ops Idle).
  - eapply Forall_impl; [|exact Hsteps]. apply spec_step_enters_Running.
  - apply (enters_Stopped_count ops Idle).
  - eapply Forall_impl; [|exact Hsteps]. apply spec_step_enters_Stopped.
  - apply count_none. eapply Forall_impl; [|exact Hsteps].
    apply spec_step_stays_Stopped.
Qed.

(** *** Where a run from a fresh exporter ends *)

Lemma no_shutdown_after_start (ops : list (Op Ctx ReadOnlySpan)) :
  existsb is_OpShutdown ops = false -> shutdown_after_start ops = false.
Proof.
  induction ops as [|o rest IH]; cbn; [reflexivity|].
  destruct o; cbn; intros H; try discriminate H; auto.
Qed.

Lemma no_start_no_shutdown_after (ops : list (Op Ctx ReadOnlySpan)) :
  existsb is_OpStart ops = false -> shutdown_after_start ops = false.
Proof.
  induction ops as [|o rest IH]; cbn; [reflexivity|].
  destruct o; cbn; intros H; try discriminate H; auto.
Qed.

Lemma spec_run_started_only (ops : list (Op Ctx ReadOnlySpan)) :
  existsb is_OpStart ops = true -> existsb is_OpShutdown ops = false ->
  fold_left spec_next ops Idle = Running.
Proof.
  induction ops as [|o rest IH]; cbn; [discriminate|].
  destruct o; cbn; intros Hs Hd; try discriminate Hd; auto.
  apply spec_run_Running. exact Hd.
Qed.

(** In a run from [Idle] without [Start], every [Shutdown] returns nil. *)
Lemma run_Idle_Shutdown_results (ops : list (Op Ctx ReadOnlySpan)) :
  forall (s s' : Sys Ctx WireRecord C) (rs : list error),
    state_of (exp s) = Some Idle ->
    existsb is_OpStart ops = false ->
    run Spans ops s = Some (rs, s') ->
    Forall2 (fun o r => is_OpShutdown o = true -> r = None) ops rs.
Proof.
  induction ops as [|o rest IH]; intros s s' rs Hst Hno Hrun.
  - cbn in Hrun. injection Hrun as <- _. constructor.
  - cbn in Hno. apply orb_false_elim in Hno as [Ho Hrest].
    destruct (perform_step o s Hst) as (r & s1 & Hp & Hst1 & _).
    destruct (run_spec rest s1 Hst1) as (rs1 & s2 & Hr & _).
    cbn [run] in Hrun. unfold bind at 1 in Hrun. rewrite Hp in Hrun.
    unfold bind at 1 in Hrun. rewrite Hr in Hrun. injection Hrun as <- _.
    constructor.
    + intros Hsd. destruct o; try discriminate Hsd. cbn [perform] in Hp.
      rewrite (sys_at_state s Hst), Shutdown_Idle in Hp. congruence.
    + apply (IH s1 s2); [|exact Hrest|exact Hr].
      rewrite Hst1. destruct o; try discriminate Ho; reflexivity.
Qed.

(** *** The claims about the lifecycle *)

(** C3.  Over any sequence of calls on a fresh exporter, the client's
    [Start] is reached at most once (once if the sequence has a [Start])
    and the client's [Stop] at most once; and once a [Start] has been
    made, whatever its outcome, every further [Start] returns
    [errAlreadyStarted] and leaves the exporter, the client and the
    history of client calls as they were. *)
Theorem client_reached_at_most_once (c : C) (ops : list (Op Ctx ReadOnlySpan)) :
  exists rs s,
    run Spans ops (fresh c) = Some (rs, s)
    /\ List.length rs = List.length ops
    /\ count is_Start (calls s) = (if existsb is_OpStart ops then 1 else 0)
    /\ count is_Start (calls s) <= 1
    /\ count is_Stop (calls s) = (if shutdown_after_start ops then 1 else 0)
    /\ count is_Stop (calls s) <= 1
    /\ (existsb is_OpStart ops = true ->
        forall ctx, Start ctx s = Some (Some errAlreadyStarted, s)).
Proof.
  destruct (run_spec ops (fresh c) (st := Idle) eq_refl)
    as (rs & s & Hr & Hlen & Hst & Hstart & Hstop).
  exists rs, s. cbn in Hstart, Hstop.
  repeat split; try assumption.
  - rewrite Hstart. destruct (existsb is_OpStart ops); lia.
  - rewrite Hstop. destruct (shutdown_after_start ops); lia.
  - intros Hs ctx. rewrite (sys_at_state s Hst).
    apply Start_again. apply spec_run_started. exact Hs.
Qed.

(** C6.  On an exporter that was constructed and never started, whatever
    [ExportSpans] and [Shutdown] calls came before, every [Shutdown]
    returns nil and changes nothing: no client method is called by it,
    and the client's [Start] and [Stop] have never been reached. *)
Theorem Shutdown_never_started (c : C) (ops : list (Op Ctx ReadOnlySpan)) (ctx : Ctx) :
  existsb is_OpStart ops = false ->
  exists rs s,
    run Spans ops (fresh c) = Some (rs, s)
    /\ Forall2 (fun o r => is_OpShutdown o = true -> r = None) ops rs
    /\ Shutdown ctx s = Some (None, s)
    /\ count is_Start (calls s) = 0
    /\ count is_Stop (calls s) = 0.
Proof.
  intros Hno.
  destruct (run_spec ops (fresh c) (st := Idle) eq_refl)
    as (rs & s & Hr & Hlen & Hst & Hstart & Hstop).
  exists rs, s. cbn in Hstart, Hstop.
  rewrite Hno in Hstart. rewrite (no_start_no_shutdown_after _ Hno) in Hstop.
  rewrite (spec_run_not_started _ Hno) in Hst.
  repeat split; try assumption.
  - apply (run_Idle_Shutdown_results ops (fresh c) (s' := s)); auto.
  - rewrite (sys_at_state s Hst). apply Shutdown_Idle.
Qed.

(** C2, as the code has it.  On an exporter that has been started and not
    yet shut down, the first [Shutdown] calls the client's [Stop] once and
    returns its result; after it, whatever calls follow, every [Shutdown]
    returns nil (not the result of that [Stop]) and changes nothing, so
    the client's [Stop] is reached exactly once. *)
Theorem Shutdown_first_and_later (c : C) (ops1 ops2 : list (Op Ctx ReadOnlySpan))
    (ctx ctx' : Ctx) :
  existsb is_OpStart ops1 = true ->
  existsb is_OpShutdown ops1 = false ->
  exists rs1 s1 s2 rs2 s3,
    run Spans ops1 (fresh c) = Some (rs1, s1)
    /\ count is_Stop (calls s1) = 0
    /\ Shutdown ctx s1 = Some (fst (Client_Stop ctx (client (exp s1))), s2)
    /\ calls s2 = calls s1 ++ [mkEvent (CallStop ctx) true]
    /\ run Spans ops2 s2 = Some (rs2, s3)
    /\ Shutdown ctx' s3 = Some (None, s3)
    /\ count is_Stop (calls s3) = 1.
Proof.
  intros Hs Hd.
  destruct (run_spec ops1 (fresh c) (st := Idle) eq_refl)
    as (rs1 & s1 & Hr1 & _ & Hst1 & _ & Hstop1).
  rewrite (spec_run_started_only _ Hs Hd) in Hst1.
  cbn in Hstop1. rewrite (no_shutdown_after_start _ Hd) in Hstop1.
  pose proof (Shutdown_Running ctx (client (exp s1)) (calls s1)) as Hsd.
  rewrite <- (sys_at_state s1 Hst1) in Hsd.
  set (s2 := mkSys (at_state Stopped (snd (Client_Stop ctx (client (exp s1)))))
                   (calls s1 ++ [mkEvent (CallStop ctx) true])) in *.
  destruct (run_spec ops2 s2 (st := Stopped) eq_refl)
    as (rs2 & s3 & Hr2 & _ & Hst3 & _ & Hstop3).
  rewrite spec_run_Stopped in Hst3.
  exists rs1, s1, s2, rs2, s3.
  repeat split; try assumption.
  - rewrite (sys_at_state s3 Hst3). apply Shutdown_Stopped.
  - rewrite Hstop3. unfold s2; cbn [calls stops_from].
    rewrite count_app, Hstop1. reflexivity.
Qed.

(** C4.  If the client's [Start] fails with [E] in the first [Start] call,
    that call returns [E]; the client was called with [started] already
    set, and [started] stays set (the exporter is [Running]); so the next
    [Shutdown] calls the client's [Stop], and over any later sequence of
    calls with a [Shutdown] the client's [Stop] is reached exactly once. *)
Theorem Start_failure_keeps_Running (c : C) (ctx : Ctx) (E : errorValue) :
  fst (Client_Start ctx c) = Some E ->
  exists s1,
    Start ctx (fresh c) = Some (Some E, s1)
    /\ calls s1 = [mkEvent (CallStart ctx) true]
    /\ started (exp s1) = true
    /\ state_of (exp s1) = Some Running
    /\ (forall ctx', exists s2,
          Shutdown ctx' s1 = Some (fst (Client_Stop ctx' (client (exp s1))), s2)
          /\ calls s2 = [mkEvent (CallStart ctx) true; mkEvent (CallStop ctx') true])
    /\ (forall ops, existsb is_OpShutdown ops = true ->
          exists rs s2, run Spans ops s1 = Some (rs, s2)
                        /\ count is_Stop (calls s2) = 1).
Proof.
  intros HE.
  pose proof (Start_Idle ctx c []) as Hstart. rewrite HE in Hstart.
  eexists; split; [exact Hstart|]. cbn [calls exp app].
  repeat split.
  - intros ctx'. eexists; split; [apply Shutdown_Running | reflexivity].
  - intros ops Hd.
    match goal with |- context [run Spans ops ?s] => set (s1 := s) end.
    destruct (run_spec ops s1 (st := Running) eq_refl)
      as (rs & s2 & Hr & _ & _ & _ & Hstop).
    exists rs, s2. split; [exact Hr|].
    rewrite Hstop. cbn. rewrite Hd. reflexivity.
Qed.

(** *** The claims about [ExportSpans] and [NewExporter] *)

(** C1, as the code has it.  An [ExportSpans] call made before the
    exporter is [Running] or after it is [Stopped] is not dropped: it
    returns nil without calling the client only when the transformed batch
    is empty; otherwise it calls the client's [UploadTraces] once with the
    transformed batch (the history shows the call made while [started] was
    false) and returns the client's result. *)
Theorem ExportSpans_outside_Running (s : Sys Ctx WireRecord C) (ctx : Ctx)
    (ss : list ReadOnlySpan) :
  state_of (exp s) = Some Idle \/ state_of (exp s) = Some Stopped ->
  match Spans ss with
  | [] => ExportSpans Spans ctx ss s = Some (None, s)
  | _ :: _ =>
      exists r c',
        Client_UploadTraces ctx (Spans ss) (client (exp s)) = (r, c')
        /\ ExportSpans Spans ctx ss s
           = Some (r, mkSys (with_client c' (exp s))
                            (calls s ++ [mkEvent (CallUploadTraces ctx (Spans ss)) false]))
  end.
Proof.
  intros Hst. rewrite ExportSpans_eq.
  assert (Hb : started (exp s) = false).
  { destruct Hst as [H | H]; rewrite (sys_at_state s H); reflexivity. }
  rewrite Hb. destruct (Spans ss) as [|w ws]; [reflexivity|].
  destruct (Client_UploadTraces ctx (w :: ws) (client (exp s))) as [r c'].
  exists r, c'. split; reflexivity.
Qed.

(** C7.  Given that the transform maps the empty batch to the empty batch
    (its contract in the specification), an [ExportSpans] call whose batch
    is empty, or whose transformed batch is empty, returns nil and changes
    nothing: the client is not called. *)
Theorem ExportSpans_empty (s : Sys Ctx WireRecord C) (ctx : Ctx)
    (ss : list ReadOnlySpan) :
  Spans [] = [] ->
  ss = [] \/ Spans ss = [] ->
  ExportSpans Spans ctx ss s = Some (None, s).
Proof.
  intros Hnil H. assert (Hws : Spans ss = []).
  { destruct H as [-> | H]; [exact Hnil | exact H]. }
  rewrite ExportSpans_eq, Hws. reflexivity.
Qed.

(** C9.  [ExportSpans] neither reads nor writes the lifecycle fields: the
    result [r] and the client's next state [c'] are fixed by the client
    state, the context and the records alone, and whatever the mutex, the
    [started] flag and the two gates hold, the call returns [r], leaves
    those four fields as they were, and records at most one client call,
    an [UploadTraces]. *)
Theorem ExportSpans_frame (c : C) (ctx : Ctx) (ss : list ReadOnlySpan) :
  exists (r : error) (c' : C),
    forall (m : sync.RWMutex) (b : bool) (o1 o2 : sync.Once)
           (h : list (Event Ctx WireRecord)),
    exists evs,
      ExportSpans Spans ctx ss (mkSys (mkExporter c m b o1 o2) h)
      = Some (r, mkSys (mkExporter c' m b o1 o2) (h ++ evs))
      /\ List.length evs <= 1
      /\ forallb is_UploadTraces evs = true.
Proof.
  destruct (Spans ss) as [|w ws] eqn:Hws.
  - exists None, c. intros m b o1 o2 h. exists [].
    rewrite ExportSpans_eq, Hws, app_nil_r. cbn. auto.
  - exists (fst (Client_UploadTraces ctx (w :: ws) c)),
           (snd (Client_UploadTraces ctx (w :: ws) c)).
    intros m b o1 o2 h. eexists.
    rewrite ExportSpans_eq, Hws. cbn [exp client calls with_client mu started
                                       startOnce stopOnce].
    split; [reflexivity|]. cbn. auto.
Qed.

(** C10.  [NewExporter] constructs an unstarted exporter and calls [Start]
    on it, which calls the client's [Start] once; if that returns an error
    [e], [NewExporter] returns the nil exporter and [e]; if it returns nil,
    [NewExporter] returns the exporter, which is [Running], and nil. *)
Theorem NewExporter_result (c : C) (ctx : Ctx) :
  exists s,
    Start ctx (mkSys (NewUnstartedExporter c) []) = Some (fst (Client_Start ctx c), s)
    /\ calls s = [mkEvent (CallStart ctx) true]
    /\ state_of (exp s) = Some Running
    /\ client (exp s) = snd (Client_Start ctx c)
    /\ NewExporter ctx c
       = Some (match fst (Client_Start ctx c) with
               | Some e => (None, Some e)
               | None => (Some (exp s), None)
               end, calls s).
Proof.
  pose proof (Start_Idle ctx c []) as Hstart.
  eexists; split; [exact Hstart|]. cbn [calls exp app].
  repeat split.
  unfold NewExporter, fresh. change (NewUnstartedExporter c) with (at_state Idle c).
  rewrite Hstart. destruct (fst (Client_Start ctx c)); reflexivity.
Qed.

End Properties.

(** ** [ExportSpans] with the transform of the specification *)

Section Transform.
Context {Ctx ReadOnlySpan WireRecord C : Type}.
Context {cl : Client Ctx WireRecord C}.
Variable span : ReadOnlySpan -> option WireRecord.

Lemma Spans_all_nonempty (ss : list ReadOnlySpan) :
  Forall (fun r => span r <> None) ss ->
  Forall2 (fun r w => span r = Some w) ss (tracetransform.Spans span ss).
Proof.
  induction 1 as [|r rest Hr _ IH]; cbn; [constructor|].
  destruct (span r) as [w|] eqn:Hw; [|contradiction].
  constructor; assumption.
Qed.

(** C8.  An [ExportSpans] call with N > 0 records, none of them empty,
    calls the client's [UploadTraces] exactly once, with the N transformed
    records in the order of the input, and returns the client's result as
    it is. *)
Theorem ExportSpans_forwards (s : Sys Ctx WireRecord C) (ctx : Ctx)
    (ss : list ReadOnlySpan) :
  ss <> [] ->
  Forall (fun r => span r <> None) ss ->
  let ws := tracetransform.Spans span ss in
  List.length ws = List.length ss
  /\ Forall2 (fun r w => span r = Some w) ss ws
  /\ ExportSpans (tracetransform.Spans span) ctx ss s
     = Some (fst (Client_UploadTraces ctx ws (client (exp s))),
             mkSys (with_client (snd (Client_UploadTraces ctx ws (client (exp s))))
                                (exp s))
                   (calls s ++ [mkEvent (CallUploadTraces ctx ws) (started (exp s))])).
Proof.
  intros Hne Hall ws.
  pose proof (Spans_all_nonempty Hall) as H2. fold ws in H2.
  split; [symmetry; exact (Forall2_length H2)|]. split; [exact H2|].
  rewrite ExportSpans_eq. fold ws.
  destruct ws as [|w ws']; [|reflexivity].
  inversion H2; subst. contradiction.
Qed.

End Transform.

(** ** Concurrent callers: properties *)

Section InterleavingProperties.
Context {Ctx ReadOnlySpan WireRecord C : Type}.
Context {cl : Client Ctx WireRecord C}.
Variable Spans : list ReadOnlySpan -> list WireRecord.





Lemma step_accounting (g : Gate) (t t' : Thread Ctx ReadOnlySpan)
    (s s' : Sys Ctx WireRecord C) (H B A : nat) :
  step Spans t s = Some (t', s') ->
  B + A <= H ->
  H + Nat.b2n (holds g t) = Nat.b2n (sync.locked (sync.m (gate_of g (exp s)))) ->
  count (is_call g) (calls s)
    = Nat.b2n (sync.done (gate_of g (exp s))) + (A + Nat.b2n (after_call g t)) ->
  (sync.done (gate_of g (exp s)) = true ->
   (B + Nat.b2n (before_call g t)) + (A + Nat.b2n (after_call g t)) = 0) ->
  H + Nat.b2n (holds g t') = Nat.b2n (sync.locked (sync.m (gate_of g (exp s'))))
  /\ count (is_call g) (calls s')
     = Nat.b2n (sync.done (gate_of g (exp s'))) + (A + Nat.b2n (after_call g t'))
  /\ (sync.done (gate_of g (exp s')) = true ->
      (B + Nat.b2n (before_call g t')) + (A + Nat.b2n (after_call g t')) = 0).
Proof.
  intros Hstep Hdom.
  destruct s as [[c [w r] b [d1 [m1]] [d2 [m2]]] h].
  destruct t; try discriminate Hstep.
  22: { cbn [step] in Hstep. unfold bind, ret in Hstep.
        rewrite ExportSpans_eq in Hstep.
        destruct (Spans ss); injection Hstep as <- <-. all: shelve. }
  all: unfold step, bind, ret, load_done, on_gate, on_mu, on_client, store_started,
         load_started, sync.Once_lock, sync.Once_unlock, sync.Once_store_done,
         sync.Mutex_Lock, sync.Mutex_Unlock, sync.Lock, sync.Unlock, sync.RLock,
         sync.RUnlock in Hstep; cbn in Hstep.
  all: repeat match type of Hstep with
       | context [if ?x then _ else _] => destruct x; cbn in Hstep
       | context [match ?x with 0 => _ | S _ => _ end] => destruct x; cbn in Hstep
       end.
  all: try discriminate Hstep.
  all: injection Hstep as <- <-.
  Unshelve.
  all: destruct g; unfold count; cbn; rewrite ?filter_app, ?length_app; cbn.
  all: intros H1 H2 H3.
  all: try (destruct d1); try (destruct d2); try (destruct m1); try (destruct m2).
  all: cbn in *.
  all: try specialize (H3 eq_refl).
  all: (split; [|split]); try (intros Hd; try discriminate Hd); try lia.
Qed.

(** *** Counting over the pool of calls *)

Lemma count_mid {A} (p : A -> bool) (l1 l2 : list A) (x : A) :
  count p (l1 ++ x :: l2) = (count p l1 + count p l2) + Nat.b2n (p x).
Proof. rewrite count_app, count_cons. destruct (p x); cbn; lia. Qed.

Lemma inside_holds (g : Gate) (l : list (Thread Ctx ReadOnlySpan)) :
  count (before_call g) l + count (after_call g) l <= count (holds g) l.
Proof.
  induction l as [|t l IH]; [reflexivity|].
  rewrite !count_cons. destruct g, t; cbn; lia.
Qed.

Lemma replace_at_mid {A} (l1 l2 : list A) (x y : A) :
  replace_at (List.length l1) y (l1 ++ x :: l2) = l1 ++ y :: l2.
Proof. induction l1 as [|z l1 IH]; cbn; [reflexivity|]. rewrite IH. reflexivity. Qed.

Lemma step_at_split (i : nat) (cfg cfg' : Config Ctx ReadOnlySpan WireRecord C) :
  step_at Spans i cfg = Some cfg' ->
  exists l1 t l2 t' s',
    threads cfg = l1 ++ t :: l2
    /\ step Spans t (shared cfg) = Some (t', s')
    /\ cfg' = mkConfig (l1 ++ t' :: l2) s'.
Proof.
  unfold step_at. destruct (nth_error (threads cfg) i) as [t|] eqn:Hnth; [|discriminate].
  destruct (step Spans t (shared cfg)) as [[t' s']|] eqn:Hstep; [|discriminate].
  intros Heq. injection Heq as <-.
  destruct (nth_error_split _ _ Hnth) as (l1 & l2 & Hl & Hlen).
  exists l1, t, l2, t', s'. rewrite Hl, <- Hlen, replace_at_mid. auto.
Qed.

(** *** The accounting of a gate is kept by every interleaving *)

Lemma step_at_gate_inv (g : Gate) (i : nat)
    (cfg cfg' : Config Ctx ReadOnlySpan WireRecord C) :
  gate_inv g cfg -> step_at Spans i cfg = Some cfg' -> gate_inv g cfg'.
Proof.
  intros (H1 & H2 & H3) Hstep.
  destruct (step_at_split _ _ Hstep) as (l1 & t & l2 & t' & s' & Hl & Ht & ->).
  rewrite Hl in H1, H2, H3.
  repeat rewrite count_mid in H1. repeat rewrite count_mid in H2.
  repeat rewrite count_mid in H3.
  unfold gate_inv. cbn [threads shared]. repeat rewrite count_mid.
  apply step_accounting with (t := t) (s := shared cfg); try assumption.
  pose proof (inside_holds g l1). pose proof (inside_holds g l2). lia.
Qed.

Lemma exec_gate_inv (g : Gate) (schedule : list nat) :
  forall cfg cfg' : Config Ctx ReadOnlySpan WireRecord C,
    gate_inv g cfg -> exec Spans schedule cfg = Some cfg' -> gate_inv g cfg'.
Proof.
  induction schedule as [|i rest IH]; intros cfg cfg' Hinv Hexec; cbn in Hexec.
  - injection Hexec as <-. exact Hinv.
  - destruct (step_at Spans i cfg) as [cfg1|] eqn:Hstep; [|discriminate].
    apply (IH cfg1); [|exact Hexec]. eapply step_at_gate_inv; eassumption.
Qed.

Lemma start_config_gate_inv (g : Gate) (c : C) (ops : list (Op Ctx ReadOnlySpan)) :
  gate_inv g (start_config (WireRecord := WireRecord) c ops).
Proof.
  assert (Hnone : forall p : Thread Ctx ReadOnlySpan -> bool,
             (forall o, p (spawn o) = false) -> count p (map spawn ops) = 0).
  { intros p Hp. apply count_none. apply Forall_forall. intros t Hin.
    apply in_map_iff in Hin as (o & <- & _). apply Hp. }
  unfold gate_inv, start_config; cbn [threads shared].
  rewrite !Hnone by (intros o; destruct g, o; reflexivity).
  destruct g; cbn; auto.
Qed.

Lemma gate_inv_at_most_once (g : Gate) (cfg : Config Ctx ReadOnlySpan WireRecord C) :
  gate_inv g cfg -> count (is_call g) (calls (shared cfg)) <= 1.
Proof.
  intros (H1 & H2 & H3).
  pose proof (inside_holds g (threads cfg)) as Hin.
  destruct (sync.done (gate_of g (exp (shared cfg)))).
  - specialize (H3 eq_refl). cbn in H2. lia.
  - destruct (sync.locked (sync.m (gate_of g (exp (shared cfg))))); cbn in *; lia.
Qed.

(** X1.  However the statements of any number of concurrent [Start],
    [ExportSpans] and [Shutdown] calls on a fresh exporter interleave, the
    client's [Start] is reached at most once and the client's [Stop] at
    most once. *)
Theorem interleaved_client_reached_at_most_once (c : C)
    (ops : list (Op Ctx ReadOnlySpan)) (schedule : list nat)
    (cfg : Config Ctx ReadOnlySpan WireRecord C) :
  exec Spans schedule (start_config c ops) = Some cfg ->
  count is_Start (calls (shared cfg)) <= 1
  /\ count is_Stop (calls (shared cfg)) <= 1.
Proof.
  intros Hexec. split.
  - apply (gate_inv_at_most_once (g := StartGate)).
    eapply exec_gate_inv; [apply start_config_gate_inv | exact Hexec].
  - apply (gate_inv_at_most_once (g := StopGate)).
    eapply exec_gate_inv; [apply start_config_gate_inv | exact Hexec].
Qed.

End InterleavingProperties.

(** ** The exporter as a machine: properties *)

Section MachineProperties.
Context {Ctx ReadOnlySpan WireRecord C : Type}.
Context {cl : Client Ctx WireRecord C}.
Variable Spans : list ReadOnlySpan -> list WireRecord.

Lemma with_client_at_state (st : ControllerState) (c c' : C) :
  with_client c' (at_state st c) = at_state st c'.
Proof. destruct st; reflexivity. Qed.

Lemma started_at_state (st : ControllerState) (c : C) :
  started (at_state st c) = is_state Running (Some st).
Proof. destruct st; reflexivity. Qed.

Lemma perform_machine_step (o : Op Ctx ReadOnlySpan) (st : ControllerState) (c : C)
    (h : list (Event Ctx WireRecord)) :
  perform Spans o (mkSys (at_state st c) h)
  = match machine_step Spans st c o with
    | (r, st', c', evs) => Some (r, mkSys (at_state st' c') (h ++ evs))
    end.
Proof.
  destruct o as [ctx | ctx ss | ctx]; cbn [perform machine_step].
  - destruct st; rewrite ?app_nil_r;
      [apply Start_Idle | apply Start_again; discriminate
      | apply Start_again; discriminate].
  - rewrite ExportSpans_eq. destruct (Spans ss) as [|w ws]; rewrite ?app_nil_r;
      [reflexivity|]. cbn [exp calls client].
    rewrite with_client_at_state, started_at_state.
    replace (client (at_state st c)) with c by (destruct st; reflexivity).
    reflexivity.
  - destruct st; rewrite ?app_nil_r;
      [apply Shutdown_Idle | apply Shutdown_Running | apply Shutdown_Stopped].
Qed.

(** X4.  From any lifecycle state, a sequence of calls run one after the
    other never gets stuck and does exactly what the three-state machine
    does: the same results, the same final lifecycle state and client
    state, and the same client calls appended to the history. *)
Theorem run_machine (ops : list (Op Ctx ReadOnlySpan)) :
  forall (st : ControllerState) (c : C) (h : list (Event Ctx WireRecord)),
    run Spans ops (mkSys (at_state st c) h)
    = match machine_run Spans st c ops with
      | (rs, st', c', evs) => Some (rs, mkSys (at_state st' c') (h ++ evs))
      end.
Proof.
  induction ops as [|o rest IH]; intros st c h; cbn [run machine_run].
  - unfold ret. rewrite app_nil_r. reflexivity.
  - unfold bind at 1. rewrite perform_machine_step.
    destruct (machine_step Spans st c o) as [[[r st1] c1] evs1].
    unfold bind at 1. rewrite IH.
    destruct (machine_run Spans st1 c1 rest) as [[[rs st2] c2] evs2].
    unfold ret. rewrite app_assoc. reflexivity.
Qed.

Lemma machine_step_history (o : Op Ctx ReadOnlySpan) (st : ControllerState) (c : C) :
  match machine_step Spans st c o with
  | (_, _, c', evs) =>
      map (@call Ctx WireRecord) (filter is_UploadTraces evs) = expected_uploads Spans [o]
      /\ c' = replay (map (@call Ctx WireRecord) evs) c
  end.
Proof.
  destruct o as [ctx | ctx ss | ctx]; cbn [machine_step expected_uploads flat_map].
  - destruct st; split; reflexivity.
  - destruct (Spans ss) as [|w ws]; split; reflexivity.
  - destruct st; split; reflexivity.
Qed.

Lemma replay_app (cs1 cs2 : list (Call Ctx WireRecord)) (c : C) :
  replay (cs1 ++ cs2) c = replay cs2 (replay cs1 c).
Proof.
  revert c. induction cs1 as [|x cs1 IH]; intros c; [reflexivity|].
  destruct x; cbn; apply IH.
Qed.

Lemma run_history (ops : list (Op Ctx ReadOnlySpan)) :
  forall (st : ControllerState) (c : C) (h : list (Event Ctx WireRecord)),
  exists rs st' c' evs,
    run Spans ops (mkSys (at_state st c) h) = Some (rs, mkSys (at_state st' c') (h ++ evs))
    /\ map (@call Ctx WireRecord) (filter is_UploadTraces evs) = expected_uploads Spans ops
    /\ c' = replay (map (@call Ctx WireRecord) evs) c.
Proof.
  induction ops as [|o rest IH]; intros st c h.
  - exists [], st, c, []. rewrite app_nil_r. repeat split.
  - pose proof (perform_machine_step o st c h) as Hp.
    pose proof (machine_step_history o st c) as Hh.
    destruct (machine_step Spans st c o) as [[[r st1] c1] evs1].
    destruct Hh as [Hu1 Hc1].
    destruct (IH st1 c1 (h ++ evs1)) as (rs & st2 & c2 & evs2 & Hr & Hu2 & Hc2).
    exists (r :: rs), st2, c2, (evs1 ++ evs2).
    cbn [run]. unfold bind at 1. rewrite Hp. unfold bind at 1. rewrite Hr.
    unfold ret. rewrite app_assoc. split; [reflexivity|].
    rewrite filter_app, !map_app, replay_app, Hu1, Hu2, <- Hc1, <- Hc2.
    split; [|reflexivity].
    unfold expected_uploads. cbn [flat_map]. rewrite app_nil_r. reflexivity.
Qed.

(** X5.  Over any sequence of calls on a fresh exporter, the uploads that
    reach the client are exactly the non-empty transformed batches of the
    [ExportSpans] calls, each once and in the order of the calls (nothing
    is held back, dropped, repeated or reordered, in any lifecycle state);
    and the client ends in the state that serving the recorded calls in
    order leaves it in. *)
Theorem uploads_in_call_order (c : C) (ops : list (Op Ctx ReadOnlySpan)) :
  exists rs s,
    run Spans ops (fresh c) = Some (rs, s)
    /\ map (@call Ctx WireRecord) (filter is_UploadTraces (calls s))
       = expected_uploads Spans ops
    /\ client (exp s) = replay (map (@call Ctx WireRecord) (calls s)) c.
Proof.
  destruct (run_history ops Idle c []) as (rs & st' & c' & evs & Hr & Hu & Hc).
  exists rs, (mkSys (at_state st' c') evs). split; [exact Hr|].
  cbn [calls exp]. split; [exact Hu|].
  rewrite <- Hc. destruct st'; reflexivity.
Qed.

End MachineProperties.

(** ** The export pipeline: properties *)

Section PipelineProperties.
Context {Ctx ReadOnlySpan WireRecord C : Type}.
Context {cl : Client Ctx WireRecord C}.
Variable TracerProvider : Type.
Variable NewBatchedProvider : option (Exporter C) -> TracerProvider.

Lemma NewExporter_eq (ctx : Ctx) (c : C) :
  NewExporter ctx c
  = Some (match fst (Client_Start ctx c) with
          | Some e => (None, Some e)
          | None => (Some (at_state Running (snd (Client_Start ctx c))), None)
          end, [mkEvent (CallStart ctx) true]).
Proof.
  unfold NewExporter, fresh. change (NewUnstartedExporter c) with (at_state Idle c).
  rewrite Start_Idle. destruct (fst (Client_Start ctx c)); reflexivity.
Qed.

(** X6.  [NewExportPipeline] calls the client's [Start] exactly once and
    makes no other client call.  If that fails with [e], it returns the nil
    exporter, no tracer provider and [e]; otherwise it returns the exporter,
    which is [Running] over the client's next state, a provider built over
    that same exporter, and the nil error. *)
Theorem NewExportPipeline_result (ctx : Ctx) (c : C) :
  NewExportPipeline NewBatchedProvider ctx c
  = Some (match fst (Client_Start ctx c) with
          | Some e => (None, None, Some e)
          | None =>
              let exp := Some (at_state Running (snd (Client_Start ctx c))) in
              (exp, Some (NewBatchedProvider exp), None)
          end, [mkEvent (CallStart ctx) true]).
Proof.
  unfold NewExportPipeline. rewrite NewExporter_eq.
  destruct (fst (Client_Start ctx c)); reflexivity.
Qed.

(** X7.  [InstallNewPipeline] replaces the process-wide tracer provider
    only when the client's [Start] succeeds: on failure with [e] it returns
    nil, nil and [e] and leaves the global provider as it was; on success
    the global provider is the very provider it returns, the returned
    exporter is [Running], and the returned error is nil.  Either way the
    client's [Start] is the only client call made. *)
Theorem InstallNewPipeline_result (ctx : Ctx) (c : C) (global : option TracerProvider) :
  InstallNewPipeline NewBatchedProvider ctx c global
  = Some (match fst (Client_Start ctx c) with
          | Some e => (None, None, Some e, [mkEvent (CallStart ctx) true], global)
          | None =>
              let exp := Some (at_state Running (snd (Client_Start ctx c))) in
              let tp := Some (NewBatchedProvider exp) in
              (exp, tp, None, [mkEvent (CallStart ctx) true], tp)
          end).
Proof.
  unfold InstallNewPipeline, NewExportPipeline. rewrite NewExporter_eq.
  destruct (fst (Client_Start ctx c)); reflexivity.
Qed.

(** X15.  An exporter that [NewExporter] returns is already started: a
    [Start] on it returns [errAlreadyStarted] and changes nothing, without
    calling the client; and its first [Shutdown] calls the client's [Stop]
    and returns its result, the client's [Start] and [Stop] having been
    called once each. *)
Theorem NewExporter_is_started (ctx : Ctx) (c : C) (e : Exporter C)
    (evs : list (Event Ctx WireRecord)) :
  NewExporter ctx c = Some ((Some e, None), evs) ->
  forall ctx',
    Start ctx' (mkSys e evs) = Some (Some errAlreadyStarted, mkSys e evs)
    /\ exists s',
         Shutdown ctx' (mkSys e evs) = Some (fst (Client_Stop ctx' (client e)), s')
         /\ calls s' = [mkEvent (CallStart ctx) true; mkEvent (CallStop ctx') true].
Proof.
  rewrite NewExporter_eq. intros Hnew ctx'.
  destruct (fst (Client_Start ctx c)); [discriminate Hnew|].
  injection Hnew as <- <-. split.
  - apply (Start_again ctx' (st := Running)). discriminate.
  - eexists. split; [apply (Shutdown_Running ctx') | reflexivity].
Qed.

End PipelineProperties.

(** ** Concurrent callers: locks, progress and results, properties *)

Unset Implicit Arguments.

Section ConcurrencyProperties.
Context {Ctx ReadOnlySpan WireRecord C : Type}.
Context {cl : Client Ctx WireRecord C}.
Variable Spans : list ReadOnlySpan -> list WireRecord.

(** Execute the statement of [H : step Spans t s = Some (t', s')], for [t]
    and the locks of [s] given by constructors: [H] is replaced by the
    equations of its outcome. *)
Ltac step_run H :=
  unfold step, bind, ret, load_done, on_gate, on_mu, on_client, store_started,
    load_started, sync.Once_lock, sync.Once_unlock, sync.Once_store_done,
    sync.Mutex_Lock, sync.Mutex_Unlock, sync.Lock, sync.Unlock, sync.RLock,
    sync.RUnlock in H;
  cbn in H;
  repeat match type of H with
    | context [if ?x then _ else _] => destruct x; cbn in H
    end;
  try discriminate H;
  injection H as <- <-.

(** Case analysis of one statement: the exporter's locks and gates are
    made explicit, then the statement is executed. *)
Ltac step_cases t s H :=
  destruct s as [[?c [[|] [|?r]] ?b [[|] [[|]]] [[|] [[|]]]] ?h];
  destruct t; try discriminate H;
  try (cbn [step] in H; unfold bind, ret in H; rewrite ExportSpans_eq in H;
       match type of H with context [Spans ?ss] => destruct (Spans ss) end);
  step_run H.




Lemma step_enabled (t t' : Thread Ctx ReadOnlySpan) (s s' : Sys Ctx WireRecord C) :
  step Spans t s = Some (t', s') -> enabled t (exp s) = true.
Proof. intros Hstep. step_cases t s Hstep; reflexivity. Qed.

Lemma step_decreases (t t' : Thread Ctx ReadOnlySpan) (s s' : Sys Ctx WireRecord C) :
  step Spans t s = Some (t', s') -> steps_left t' < steps_left t.
Proof. intros Hstep. step_cases t s Hstep; cbn; lia. Qed.


(** *** Lists of calls *)






Lemma total_mid {A} (f : A -> nat) (l1 l2 : list A) (x : A) :
  total f (l1 ++ x :: l2) = (total f l1 + total f l2) + f x.
Proof. induction l1 as [|y l1 IH]; cbn; [lia|]. rewrite IH. lia. Qed.


(** *** The accounting of the locks is kept by every interleaving *)








(** *** No deadlock *)



Lemma step_at_steps_left (i : nat) (cfg cfg' : Config Ctx ReadOnlySpan WireRecord C) :
  step_at Spans i cfg = Some cfg' ->
  total steps_left (threads cfg') < total steps_left (threads cfg).
Proof.
  intros Hstep.
  apply step_at_split in Hstep as (l1 & t & l2 & t' & s' & Hl & Ht & ->).
  rewrite Hl. cbn [threads]. rewrite !total_mid.
  pose proof (step_decreases _ _ _ _ Ht). lia.
Qed.

Lemma exec_steps_left (schedule : list nat) :
  forall cfg cfg' : Config Ctx ReadOnlySpan WireRecord C,
    exec Spans schedule cfg = Some cfg' ->
    List.length schedule + total steps_left (threads cfg')
    <= total steps_left (threads cfg).
Proof.
  induction schedule as [|i rest IH]; intros cfg cfg' Hexec; cbn in Hexec.
  - injection Hexec as <-. cbn. lia.
  - destruct (step_at Spans i cfg) as [cfg1|] eqn:Hstep; [|discriminate].
    pose proof (step_at_steps_left _ _ _ Hstep). specialize (IH _ _ Hexec).
    cbn [List.length]. lia.
Qed.

Lemma total_spawn (ops : list (Op Ctx ReadOnlySpan)) :
  total steps_left (map spawn ops)
  = 9 * count is_OpStart ops + count is_OpExportSpans ops + 12 * count is_OpShutdown ops.
Proof.
  induction ops as [|o rest IH]; [reflexivity|].
  cbn [map total]. rewrite !count_cons, IH. destruct o; cbn; lia.
Qed.

(** X9.  No interleaving runs for ever: the calls take at most 9
    statements per [Start], 12 per [Shutdown] and 1 per [ExportSpans]
    together, whatever the schedule. *)
Theorem interleaving_is_bounded (c : C) (ops : list (Op Ctx ReadOnlySpan))
    (schedule : list nat) (cfg : Config Ctx ReadOnlySpan WireRecord C) :
  exec Spans schedule (start_config c ops) = Some cfg ->
  List.length schedule
  <= 9 * count is_OpStart ops + count is_OpExportSpans ops + 12 * count is_OpShutdown ops.
Proof.
  intros Hexec. apply exec_steps_left in Hexec.
  unfold start_config in Hexec; cbn [threads] in Hexec.
  rewrite total_spawn in Hexec. lia.
Qed.




(** *** Who gets the client's result *)

Lemma step_carries (g : Gate) (o : Op Ctx ReadOnlySpan) (t t' : Thread Ctx ReadOnlySpan)
    (s s' : Sys Ctx WireRecord C) :
  statement_of o t = true ->
  step Spans t s = Some (t', s') ->
  statement_of o t' = true
  /\ Nat.b2n (carries g o t') + count (is_call g) (calls s)
     <= Nat.b2n (carries g o t) + count (is_call g) (calls s').
Proof.
  intros Hof Hstep. step_cases t s Hstep.
  all: destruct o; try discriminate Hof; clear Hof.
  all: destruct g; unfold count; cbn; rewrite ?filter_app, ?length_app; cbn.
  all: split; [reflexivity|].
  all: repeat match goal with |- context [negb ?x] => destruct x; cbn end.
  all: lia.
Qed.

Lemma count2_replace {A B} (p : A -> B -> bool) (l1 : list A) :
  forall (l2 : list B) (i : nat) (x : A) (y y' : B),
    nth_error l1 i = Some x -> nth_error l2 i = Some y ->
    count2 p l1 (replace_at i y' l2) + Nat.b2n (p x y)
    = count2 p l1 l2 + Nat.b2n (p x y').
Proof.
  induction l1 as [|a l1 IH]; intros l2 i x y y' H1 H2.
  - destruct i; discriminate H1.
  - destruct l2 as [|b l2]; [destruct i; discriminate H2|].
    destruct i as [|i]; cbn in H1, H2.
    + injection H1 as ->. injection H2 as ->. cbn. lia.
    + cbn. specialize (IH l2 i x y y' H1 H2). lia.
Qed.

Lemma Forall2_nth_error {A B} (P : A -> B -> Prop) (l1 : list A) (l2 : list B) :
  Forall2 P l1 l2 ->
  forall (i : nat) (y : B), nth_error l2 i = Some y ->
  exists x, nth_error l1 i = Some x /\ P x y.
Proof.
  induction 1 as [|a b l1 l2 Hab _ IH]; intros i y Hi.
  - destruct i; discriminate Hi.
  - destruct i as [|i]; cbn in Hi.
    + injection Hi as <-. exists a. split; [reflexivity | exact Hab].
    + apply IH. exact Hi.
Qed.

Lemma Forall2_replace_at {A B} (P : A -> B -> Prop) (l1 : list A) (l2 : list B) :
  Forall2 P l1 l2 ->
  forall (i : nat) (x : A) (y' : B), nth_error l1 i = Some x -> P x y' ->
  Forall2 P l1 (replace_at i y' l2).
Proof.
  induction 1 as [|a b l1 l2 Hab Hrest IH]; intros i x y' Hi Hp.
  - destruct i; discriminate Hi.
  - destruct i as [|i]; cbn in Hi |- *.
    + injection Hi as ->. constructor; assumption.
    + constructor; [exact Hab|]. apply (IH i x); assumption.
Qed.

Lemma count2_le {A B} (p q : A -> B -> bool) (l1 : list A) :
  (forall x y, p x y = true -> q x y = true) ->
  forall l2 : list B, count2 p l1 l2 <= count2 q l1 l2.
Proof.
  intros Hpq. induction l1 as [|a l1 IH]; intros l2; [reflexivity|].
  destruct l2 as [|b l2]; [reflexivity|]. cbn. specialize (IH l2).
  destruct (p a b) eqn:Hp; [rewrite (Hpq _ _ Hp); cbn; lia|].
  destruct (q a b); cbn; lia.
Qed.

Lemma step_at_results_inv (g : Gate) (ops : list (Op Ctx ReadOnlySpan)) (i : nat)
    (cfg cfg' : Config Ctx ReadOnlySpan WireRecord C) :
  results_inv g ops cfg -> step_at Spans i cfg = Some cfg' -> results_inv g ops cfg'.
Proof.
  intros [Hof Hle] Hstep. unfold step_at in Hstep.
  destruct (nth_error (threads cfg) i) as [t|] eqn:Hi; [|discriminate].
  destruct (step Spans t (shared cfg)) as [[t' s']|] eqn:Ht; [|discriminate].
  injection Hstep as <-.
  destruct (Forall2_nth_error _ _ _ Hof i t Hi) as (o & Ho & Hot).
  destruct (step_carries g o t t' _ _ Hot Ht) as [Hot' Hc].
  split; cbn [threads shared].
  - apply (Forall2_replace_at _ _ _ Hof i o); assumption.
  - pose proof (count2_replace (carries g) ops (threads cfg) i o t t' Ho Hi). lia.
Qed.

Lemma exec_results_inv (g : Gate) (ops : list (Op Ctx ReadOnlySpan))
    (schedule : list nat) :
  forall cfg cfg' : Config Ctx ReadOnlySpan WireRecord C,
    results_inv g ops cfg -> exec Spans schedule cfg = Some cfg' ->
    results_inv g ops cfg'.
Proof.
  induction schedule as [|i rest IH]; intros cfg cfg' Hinv Hexec; cbn in Hexec.
  - injection Hexec as <-. exact Hinv.
  - destruct (step_at Spans i cfg) as [cfg1|] eqn:Hstep; [|discriminate].
    apply (IH cfg1); [|exact Hexec]. eapply step_at_results_inv; eassumption.
Qed.

Lemma start_config_results_inv (g : Gate) (c : C) (ops : list (Op Ctx ReadOnlySpan)) :
  results_inv g ops (start_config (WireRecord := WireRecord) c ops).
Proof.
  unfold results_inv, start_config; cbn [threads shared calls fresh].
  split.
  - induction ops as [|o rest IH]; cbn; constructor; [destruct o; reflexivity | exact IH].
  - induction ops as [|o rest IH]; cbn; [lia|].
    replace (carries g o (spawn o)) with false by (destruct g, o; reflexivity).
    cbn in *. lia.
Qed.

(** X11.  In every interleaving of concurrent calls on a fresh exporter,
    the [Start] calls that have returned anything but [errAlreadyStarted]
    are no more than the [Client.Start] calls made, hence at most one; and
    the [Shutdown] calls that have returned a non-nil error are no more
    than the [Client.Stop] calls made, hence at most one.  All other
    [Start] calls return [errAlreadyStarted], all other [Shutdown] calls
    return nil. *)
Theorem one_caller_gets_the_result (c : C) (ops : list (Op Ctx ReadOnlySpan))
    (schedule : list nat) (cfg : Config Ctx ReadOnlySpan WireRecord C) :
  exec Spans schedule (start_config c ops) = Some cfg ->
  count2 (returned_standing_out StartGate) ops (threads cfg)
    <= count is_Start (calls (shared cfg))
  /\ count is_Start (calls (shared cfg)) <= 1
  /\ count2 (returned_standing_out StopGate) ops (threads cfg)
     <= count is_Stop (calls (shared cfg))
  /\ count is_Stop (calls (shared cfg)) <= 1.
Proof.
  intros Hexec.
  assert (Hle : forall g, count2 (returned_standing_out g) ops (threads cfg)
                          <= count (is_call g) (calls (shared cfg))).
  { intros g.
    assert (Hinv : results_inv g ops cfg)
      by (eapply exec_results_inv; [apply start_config_results_inv | exact Hexec]).
    destruct Hinv as [_ Hc].
    pose proof (count2_le (returned_standing_out g) (carries g) ops) as Hrc.
    specialize (Hrc (fun o t => ltac:(
      unfold returned_standing_out, carries; destruct (calls_gate g o), t;
      cbn; congruence)) (threads cfg)).
    lia. }
  assert (Hone : forall g, count (is_call g) (calls (shared cfg)) <= 1).
  { intros g. eapply gate_inv_at_most_once, exec_gate_inv;
      [apply start_config_gate_inv | exact Hexec]. }
  repeat split; [apply (Hle StartGate) | apply (Hone StartGate)
                | apply (Hle StopGate) | apply (Hone StopGate)].
Qed.

(** *** Uploads under concurrency *)

Lemma step_uploads (t t' : Thread Ctx ReadOnlySpan) (s s' : Sys Ctx WireRecord C) :
  step Spans t s = Some (t', s') ->
  count is_UploadTraces (calls s') + Nat.b2n (upload_pending Spans t')
  = count is_UploadTraces (calls s) + Nat.b2n (upload_pending Spans t).
Proof.
  intros Hstep. destruct t; try discriminate Hstep.
  22: { cbn [step] in Hstep. unfold bind, ret in Hstep. rewrite ExportSpans_eq in Hstep.
        cbn [upload_pending]. destruct (Spans ss); injection Hstep as <- <-;
          cbn [calls upload_pending]; rewrite ?count_app; cbn; lia. }
  all: destruct s as [[c [[|] [|r]] b [[|] [[|]]] [[|] [[|]]]] h].
  all: step_run Hstep.
  all: unfold count; cbn; rewrite ?filter_app, ?length_app; cbn; lia.
Qed.

Lemma exec_uploads (schedule : list nat) :
  forall cfg cfg' : Config Ctx ReadOnlySpan WireRecord C,
    exec Spans schedule cfg = Some cfg' ->
    count is_UploadTraces (calls (shared cfg')) + count (upload_pending Spans) (threads cfg')
    = count is_UploadTraces (calls (shared cfg)) + count (upload_pending Spans) (threads cfg).
Proof.
  induction schedule as [|i rest IH]; intros cfg cfg' Hexec; cbn in Hexec.
  - injection Hexec as <-. reflexivity.
  - destruct (step_at Spans i cfg) as [cfg1|] eqn:Hstep; [|discriminate].
    rewrite (IH _ _ Hexec).
    apply step_at_split in Hstep as (l1 & t & l2 & t' & s' & Hl & Ht & ->).
    rewrite Hl. cbn [threads shared]. rewrite !count_mid.
    pose proof (step_uploads _ _ _ _ Ht). lia.
Qed.

(** X16.  In every interleaving of concurrent calls on a fresh exporter,
    the uploads made so far and the [ExportSpans] calls with a non-empty
    transformed batch that have not executed yet add up to the number of
    such calls: each of them uploads exactly once, when it executes,
    whatever [Start] and [Shutdown] calls are in progress, and no other
    call uploads. *)
Theorem every_batch_uploaded_once (c : C) (ops : list (Op Ctx ReadOnlySpan))
    (schedule : list nat) (cfg : Config Ctx ReadOnlySpan WireRecord C) :
  exec Spans schedule (start_config c ops) = Some cfg ->
  count is_UploadTraces (calls (shared cfg)) + count (upload_pending Spans) (threads cfg)
  = count (fun o => match o with
                    | OpExportSpans _ ss => negb (List.length (Spans ss) =? 0)
                    | _ => false
                    end) ops.
Proof.
  intros Hexec. rewrite (exec_uploads _ _ _ Hexec). clear Hexec.
  unfold start_config; cbn [threads shared calls fresh].
  change (count is_UploadTraces []) with 0. cbn [Nat.add].
  induction ops as [|o rest IH]; [reflexivity|].
  cbn [map]. rewrite !count_cons, IH. destruct o; reflexivity.
Qed.


(** *** The first [Start] reaches the client *)

Lemma step_past_start_gate (o : Op Ctx ReadOnlySpan) (t t' : Thread Ctx ReadOnlySpan)
    (s s' : Sys Ctx WireRecord C) :
  statement_of o t = true ->
  step Spans t s = Some (t', s') ->
  (sync.done (startOnce (exp s)) = true -> sync.done (startOnce (exp s')) = true)
  /\ (past_start_gate o t' = true ->
      past_start_gate o t = true \/ sync.done (startOnce (exp s')) = true).
Proof.
  intros Hof Hstep. step_cases t s Hstep.
  all: destruct o; try discriminate Hof; clear Hof.
  all: cbn; split; auto; try discriminate.
Qed.

Lemma step_at_start_gate_inv (ops : list (Op Ctx ReadOnlySpan)) (i : nat)
    (cfg cfg' : Config Ctx ReadOnlySpan WireRecord C) :
  start_gate_inv ops cfg -> step_at Spans i cfg = Some cfg' -> start_gate_inv ops cfg'.
Proof.
  intros [Hof Hdone] Hstep. unfold step_at in Hstep.
  destruct (nth_error (threads cfg) i) as [t|] eqn:Hi; [|discriminate].
  destruct (step Spans t (shared cfg)) as [[t' s']|] eqn:Ht; [|discriminate].
  injection Hstep as <-.
  destruct (Forall2_nth_error _ _ _ Hof i t Hi) as (o & Ho & Hot).
  destruct (step_carries StartGate o t t' _ _ Hot Ht) as [Hot' _].
  destruct (step_past_start_gate o t t' _ _ Hot Ht) as [Hmono Hpast].
  split; cbn [threads shared exp].
  - apply (Forall2_replace_at _ _ _ Hof i o); assumption.
  - intros Hc.
    pose proof (count2_replace past_start_gate ops (threads cfg) i o t t' Ho Hi) as Heq.
    destruct (past_start_gate o t') eqn:Hp'.
    + destruct (Hpast eq_refl) as [Hp | Hd]; [|exact Hd].
      apply Hmono, Hdone. rewrite Hp in Heq. cbn in Heq. lia.
    + apply Hmono, Hdone. cbn in Heq. lia.
Qed.

Lemma exec_start_gate_inv (ops : list (Op Ctx ReadOnlySpan)) (schedule : list nat) :
  forall cfg cfg' : Config Ctx ReadOnlySpan WireRecord C,
    start_gate_inv ops cfg -> exec Spans schedule cfg = Some cfg' ->
    start_gate_inv ops cfg'.
Proof.
  induction schedule as [|i rest IH]; intros cfg cfg' Hinv Hexec; cbn in Hexec.
  - injection Hexec as <-. exact Hinv.
  - destruct (step_at Spans i cfg) as [cfg1|] eqn:Hstep; [|discriminate].
    apply (IH cfg1); [|exact Hexec]. eapply step_at_start_gate_inv; eassumption.
Qed.

Lemma start_config_start_gate_inv (c : C) (ops : list (Op Ctx ReadOnlySpan)) :
  start_gate_inv ops (start_config (WireRecord := WireRecord) c ops).
Proof.
  split.
  - apply (start_config_results_inv StartGate c ops).
  - unfold start_config; cbn [threads]. intros Hc. exfalso. revert Hc.
    induction ops as [|o rest IH]; cbn; [lia|].
    replace (past_start_gate o (spawn o)) with false by (destruct o; reflexivity).
    exact IH.
Qed.

Lemma returned_past_start_gate (ops : list (Op Ctx ReadOnlySpan))
    (ts : list (Thread Ctx ReadOnlySpan)) :
  Forall2 (fun o t => statement_of o t = true) ops ts ->
  existsb is_OpStart ops = true -> forallb is_Returned ts = true ->
  1 <= count2 past_start_gate ops ts.
Proof.
  induction 1 as [|o t ops ts Hot _ IH]; cbn; [discriminate|].
  intros Hs Hr. apply andb_true_iff in Hr as [Ht Hr].
  destruct t; try discriminate Ht. destruct o; cbn in *; try lia; auto.
Qed.

Lemma returned_count_zero (p : Thread Ctx ReadOnlySpan -> bool)
    (ts : list (Thread Ctx ReadOnlySpan)) :
  (forall err, p (Returned err) = false) ->
  forallb is_Returned ts = true -> count p ts = 0.
Proof.
  intros Hp Hr. apply count_none. apply Forall_forall. intros t Hin.
  pose proof (proj1 (forallb_forall _ _) Hr t Hin) as Ht.
  destruct t; try discriminate Ht. apply Hp.
Qed.

(** X17.  Whatever the interleaving, once all the calls made concurrently
    on a fresh exporter have returned, and at least one of them was a
    [Start], the client's [Start] has been called exactly once. *)
Theorem some_Start_reaches_the_client (c : C) (ops : list (Op Ctx ReadOnlySpan))
    (schedule : list nat) (cfg : Config Ctx ReadOnlySpan WireRecord C) :
  exec Spans schedule (start_config c ops) = Some cfg ->
  existsb is_OpStart ops = true ->
  forallb is_Returned (threads cfg) = true ->
  count is_Start (calls (shared cfg)) = 1.
Proof.
  intros Hexec Hs Hr.
  assert (Hinv : start_gate_inv ops cfg)
    by (eapply exec_start_gate_inv; [apply start_config_start_gate_inv | exact Hexec]).
  assert (Hgate : gate_inv StartGate cfg)
    by (eapply exec_gate_inv; [apply start_config_gate_inv | exact Hexec]).
  destruct Hinv as [Hof Hdone]. destruct Hgate as (_ & Hcount & _).
  change (count is_Start (calls (shared cfg)))
    with (count (is_call StartGate) (calls (shared cfg))).
  rewrite Hcount. cbn [gate_of].
  rewrite Hdone by (apply returned_past_start_gate; assumption).
  rewrite returned_count_zero by (reflexivity || assumption). reflexivity.
Qed.


End ConcurrencyProperties.

(** ** A race between [Start] and [Shutdown] *)

Section Races.
Context {Ctx ReadOnlySpan WireRecord C : Type}.
Context {cl : Client Ctx WireRecord C}.
Variable Spans : list ReadOnlySpan -> list WireRecord.

(** X12.  For every client: when a [Shutdown] runs while the first
    [Start] is between setting [started] and calling the client, the
    client's [Stop] is called before the client's [Start] (which then runs
    with [started] already cleared); both calls return the client's
    results, the exporter ends [Stopped] over a client that was started
    last, and every later [Shutdown] returns nil without calling the
    client. *)
Theorem Shutdown_can_overtake_Start (c : C) (ctx1 ctx2 : Ctx) :
  let c1 := snd (Client_Stop ctx2 c) in
  let c2 := snd (Client_Start ctx1 c1) in
  let s := mkSys (at_state Stopped c2)
                 [mkEvent (CallStop ctx2) true; mkEvent (CallStart ctx1) false] in
  exec Spans (repeat 0 6 ++ repeat 1 12 ++ repeat 0 3)
       (start_config c [OpStart ctx1; OpShutdown ctx2])
  = Some (mkConfig [Returned (fst (Client_Start ctx1 c1));
                    Returned (fst (Client_Stop ctx2 c))] s)
  /\ forall ctx3, Shutdown ctx3 s = Some (None, s).
Proof. cbv zeta. split; [reflexivity | intros ctx3; apply Shutdown_Stopped]. Qed.

(** X2.  For every client: when two [Shutdown] calls on a started
    exporter have both read [started] as true, the one that finds the stop
    gate taken is blocked while the other is inside it, and in the end the
    call that ran the client's [Stop] returns its result while the other
    returns nil; the client's [Stop] is called once. *)
Theorem second_Shutdown_gets_nil (c : C) (ctx0 ctx1 ctx2 : Ctx) :
  let r0 := fst (Client_Start ctx0 c) in
  let c1 := snd (Client_Start ctx0 c) in
  let r1 := fst (Client_Stop ctx1 c1) in
  let c2 := snd (Client_Stop ctx1 c1) in
  let ops := [OpStart ctx0; OpShutdown ctx1; OpShutdown ctx2] in
  let history := [mkEvent (CallStart ctx0) true; mkEvent (CallStop ctx1) true] in
  let waiting :=
    mkConfig [Returned r0; ShutdownMuLock r1; ShutdownOnceLock ctx2]
             (mkSys (mkExporter c2 sync.zeroRWMutex true
                                (sync.mkOnce true sync.zeroMutex)
                                (sync.mkOnce false (sync.mkMutex true)))
                    history) in
  exec Spans (repeat 0 9 ++ repeat 1 3 ++ repeat 2 3 ++ [2] ++ repeat 1 4)
       (start_config c ops) = Some waiting
  /\ step_at Spans 2 waiting = None
  /\ exec Spans (repeat 1 5 ++ repeat 2 3) waiting
     = Some (mkConfig [Returned r0; Returned r1; Returned None]
                      (mkSys (at_state Stopped c2) history)).
Proof. cbv zeta. repeat split. Qed.

End Races.

(** ** The instrumented example: properties *)

(** X13.  [add] and [multiply] return the sum and the product as [int64]
    computes them: a value of 64 bits two's complement that differs from
    the exact result by a multiple of 2^64, and is the exact result
    whenever that fits in 64 bits; the result does not depend on the order
    of the two arguments. *)
Theorem add_multiply_int64 (ctx : stdout_test.Context) (x y : Z) :
  stdout_test.is_int64 (fst (stdout_test.add ctx x y))
  /\ stdout_test.is_int64 (fst (stdout_test.multiply ctx x y))
  /\ ((fst (stdout_test.add ctx x y) - (x + y)) mod 2 ^ 64 = 0)%Z
  /\ ((fst (stdout_test.multiply ctx x y) - x * y) mod 2 ^ 64 = 0)%Z
  /\ (stdout_test.is_int64 (x + y) -> fst (stdout_test.add ctx x y) = (x + y)%Z)
  /\ (stdout_test.is_int64 (x * y) -> fst (stdout_test.multiply ctx x y) = (x * y)%Z)
  /\ fst (stdout_test.add ctx x y) = fst (stdout_test.add ctx y x)
  /\ fst (stdout_test.multiply ctx x y) = fst (stdout_test.multiply ctx y x).
Proof.
  assert (Hrange : forall z, stdout_test.is_int64 (stdout_test.wrap64 z)).
  { intros z. unfold stdout_test.is_int64, stdout_test.wrap64.
    pose proof (Z.mod_pos_bound (z + 2 ^ 63) (2 ^ 64) eq_refl).
    change (2 ^ 64)%Z with (2 * 2 ^ 63)%Z in *. lia. }
  assert (Hcong : forall z, ((stdout_test.wrap64 z - z) mod 2 ^ 64 = 0)%Z).
  { intros z. unfold stdout_test.wrap64.
    rewrite (Z.mod_eq (z + 2 ^ 63) (2 ^ 64)) by discriminate.
    replace (z + 2 ^ 63 - 2 ^ 64 * ((z + 2 ^ 63) / 2 ^ 64) - 2 ^ 63 - z)%Z
      with ((- ((z + 2 ^ 63) / 2 ^ 64)) * 2 ^ 64)%Z by ring.
    apply Z.mod_mul. discriminate. }
  assert (Hexact : forall z, stdout_test.is_int64 z -> stdout_test.wrap64 z = z).
  { intros z Hz. unfold stdout_test.is_int64, stdout_test.wrap64 in *.
    rewrite Z.mod_small; [ring|]. change (2 ^ 64)%Z with (2 * 2 ^ 63)%Z. lia. }
  cbn [stdout_test.add stdout_test.multiply fst].
  repeat split; try apply Hrange; try apply Hcong; try apply Hexact.
  - rewrite Z.add_comm. reflexivity.
  - rewrite Z.mul_comm. reflexivity.
Qed.

(** X14.  [Example], for every outcome of the three calls it makes to
    the stdout exporter: it prints "the answer is 42", once, exactly when
    the pipeline was installed; it stops the pusher exactly then, and shuts
    the tracer provider down exactly when the pusher stopped without
    error; it starts three spans, all of them roots (the context is never
    threaded from one call to the next), each ended before the next is
    started; and it adds 3 to [function.loops]. *)
Theorem Example_actions (install stop shutdown : error) :
  let acts := stdout_test.Example install stop shutdown in
  count stdout_test.is_Println acts = (if is_nil install then 1 else 0)
  /\ (In (stdout_test.Println "the answer is" 42) acts <-> install = None)
  /\ (In stdout_test.PusherStop acts <-> install = None)
  /\ (In stdout_test.TracerProviderShutdown acts <-> install = None /\ stop = None)
  /\ count stdout_test.is_TracerStart acts = (if is_nil install then 3 else 0)
  /\ count stdout_test.is_root_span acts = count stdout_test.is_TracerStart acts
  /\ fold_right Z.add 0%Z (map stdout_test.loops acts) = (if is_nil install then 3 else 0)%Z
  /\ stdout_test.open_spans acts [] = Some [].
Proof.
  destruct install as [e0|], stop as [e1|], shutdown as [e2|]; cbv zeta.
  all: match goal with |- context [stdout_test.Example ?a ?b ?c] =>
         let v := eval vm_compute in (stdout_test.Example a b c) in
         change (stdout_test.Example a b c) with v end.
  all: repeat split; try reflexivity; try discriminate.
  all: try (intros H; repeat (destruct H as [H | H]; try discriminate H); contradiction).
  all: try (intros _; cbn; tauto).
  all: try (intros [H1 H2]; discriminate).
  all: exfalso; repeat (destruct H as [H | H]; try discriminate H); contradiction.
Qed.

(** ** The claims at concrete inputs *)

(** C1 as stated fails.  On a fresh ([Idle]) exporter [ExportSpans] of one
    record reaches the client's [UploadTraces] and returns its error; on an
    exporter that was started and shut down ([Stopped]) it returns nil but
    has called [UploadTraces] all the same. *)
Lemma ExportSpans_not_dropped :
  state_of (exp (fresh (Ctx := unit) (WireRecord := nat) 0)) = Some Idle
  /\ ExportSpans (cl := failingClient) exampleSpans tt [Some 7] (fresh 0)
     = Some (Some (errorString "upload failed"),
             mkSys (at_state Idle 1) [mkEvent (CallUploadTraces tt [7]) false])
  /\ run (cl := okClient) exampleSpans [OpStart tt; OpShutdown tt] (fresh 0)
     = Some ([None; None],
             mkSys (at_state Stopped 2)
                   [mkEvent (CallStart tt) true; mkEvent (CallStop tt) true])
  /\ ExportSpans (cl := okClient) exampleSpans tt [Some 7]
       (mkSys (at_state Stopped 2)
              [mkEvent (CallStart tt) true; mkEvent (CallStop tt) true])
     = Some (None,
             mkSys (at_state Stopped 3)
                   [mkEvent (CallStart tt) true; mkEvent (CallStop tt) true;
                    mkEvent (CallUploadTraces tt [7]) false]).
Proof. repeat split. Qed.

Lemma ExportSpans_outside_Running_witness :
  exists r c',
    Client_UploadTraces (Client := failingClient) tt [7] 0 = (r, c')
    /\ ExportSpans (cl := failingClient) exampleSpans tt [Some 7] (fresh 0)
       = Some (r, mkSys (at_state Idle c')
                        [mkEvent (CallUploadTraces tt [7]) false]).
Proof.
  exact (ExportSpans_outside_Running (cl := failingClient) exampleSpans
           (fresh 0) tt [Some 7] (or_introl eq_refl)).
Defined.

(** C2 as stated fails.  With a client whose [Stop] returns an error, the
    first [Shutdown] of a started exporter returns that error and the second
    one returns nil. *)
Lemma Shutdown_later_returns_nil :
  run (cl := stopFailingClient) exampleSpans
      [OpStart tt; OpShutdown tt; OpShutdown tt] (fresh 0)
  = Some ([None; Some (errorString "stop failed"); None],
          mkSys (at_state Stopped 2)
                [mkEvent (CallStart tt) true; mkEvent (CallStop tt) true])
  /\ (None : error) <> Some (errorString "stop failed").
Proof. split; [reflexivity | discriminate]. Qed.

Lemma Shutdown_first_and_later_witness :
  exists rs1 s1 s2 rs2 s3,
    run (cl := stopFailingClient) exampleSpans
        [OpStart tt; OpExportSpans tt [Some 1]] (fresh 0) = Some (rs1, s1)
    /\ count is_Stop (calls s1) = 0
    /\ Shutdown (cl := stopFailingClient) tt s1 = Some (Some (errorString "stop failed"), s2)
    /\ calls s2 = calls s1 ++ [mkEvent (CallStop tt) true]
    /\ run (cl := stopFailingClient) exampleSpans [OpShutdown tt; OpStart tt] s2 = Some (rs2, s3)
    /\ Shutdown (cl := stopFailingClient) tt s3 = Some (None, s3)
    /\ count is_Stop (calls s3) = 1.
Proof.
  exact (Shutdown_first_and_later (cl := stopFailingClient) exampleSpans 0
           [OpStart tt; OpExportSpans tt [Some 1]] [OpShutdown tt; OpStart tt]
           tt tt eq_refl eq_refl).
Defined.

Lemma client_reached_at_most_once_witness :
  exists rs s,
    run (cl := failingClient) exampleSpans
        [OpStart tt; OpShutdown tt; OpStart tt; OpShutdown tt] (fresh 0) = Some (rs, s)
    /\ count is_Start (calls s) = 1
    /\ count is_Stop (calls s) = 1
    /\ Start (cl := failingClient) tt s = Some (Some errAlreadyStarted, s).
Proof.
  destruct (client_reached_at_most_once (cl := failingClient) exampleSpans 0
              [OpStart tt; OpShutdown tt; OpStart tt; OpShutdown tt])
    as (rs & s & Hrun & _ & Hstart & _ & Hstop & _ & Hagain).
  exists rs, s. repeat split; [exact Hrun | exact Hstart | exact Hstop |].
  exact (Hagain eq_refl tt).
Defined.

Lemma Start_failure_keeps_Running_witness :
  exists s1,
    Start (cl := failingClient) tt (fresh 0)
    = Some (Some (errorString "connect failed"), s1)
    /\ calls s1 = [mkEvent (CallStart tt) true]
    /\ started (exp s1) = true
    /\ state_of (exp s1) = Some Running
    /\ (forall ctx', exists s2,
          Shutdown (cl := failingClient) ctx' s1 = Some (fst (Client_Stop (Client := failingClient) ctx' (client (exp s1))), s2)
          /\ calls s2 = [mkEvent (CallStart tt) true; mkEvent (CallStop ctx') true])
    /\ (forall ops, existsb is_OpShutdown ops = true ->
          exists rs s2, run (cl := failingClient) exampleSpans ops s1 = Some (rs, s2)
                        /\ count is_Stop (calls s2) = 1).
Proof.
  exact (Start_failure_keeps_Running (cl := failingClient) exampleSpans 0 tt eq_refl).
Defined.

Lemma Shutdown_never_started_witness :
  exists rs s,
    run (cl := failingClient) exampleSpans
        [OpShutdown tt; OpExportSpans tt [Some 1]] (fresh 0) = Some (rs, s)
    /\ Forall2 (fun o r => is_OpShutdown o = true -> r = None)
               [OpShutdown tt; OpExportSpans tt [Some 1]] rs
    /\ Shutdown (cl := failingClient) tt s = Some (None, s)
    /\ count is_Start (calls s) = 0
    /\ count is_Stop (calls s) = 0.
Proof.
  exact (Shutdown_never_started (cl := failingClient) exampleSpans 0
           [OpShutdown tt; OpExportSpans tt [Some 1]] tt eq_refl).
Defined.

Lemma ExportSpans_empty_witness :
  ExportSpans (cl := failingClient) exampleSpans tt [] (fresh 0) = Some (None, fresh 0)
  /\ ExportSpans (cl := failingClient) exampleSpans tt [None; None] (fresh 0)
     = Some (None, fresh 0).
Proof.
  split.
  - exact (ExportSpans_empty (cl := failingClient) exampleSpans (fresh 0) tt
             (ss := []) eq_refl (or_introl eq_refl)).
  - exact (ExportSpans_empty (cl := failingClient) exampleSpans (fresh 0) tt
             (ss := [None; None]) eq_refl (or_intror eq_refl)).
Defined.

Lemma ExportSpans_forwards_witness :
  List.length (exampleSpans [Some 7; Some 9]) = 2
  /\ Forall2 (fun r w => exampleSpan r = Some w) [Some 7; Some 9] [7; 9]
  /\ ExportSpans (cl := failingClient) exampleSpans tt [Some 7; Some 9] (fresh 0)
     = Some (Some (errorString "upload failed"),
             mkSys (at_state Idle 1) [mkEvent (CallUploadTraces tt [7; 9]) false]).
Proof.
  apply (ExportSpans_forwards (cl := failingClient) exampleSpan (fresh 0) tt
           (ss := [Some 7; Some 9])).
  - discriminate.
  - repeat constructor; discriminate.
Defined.

(** ** Concurrent callers at concrete inputs *)

Lemma interleaved_client_reached_at_most_once_witness :
  count is_Start [mkEvent (WireRecord := nat) (CallStart tt) true;
                  mkEvent (CallStop tt) true] <= 1
  /\ count is_Stop [mkEvent (WireRecord := nat) (CallStart tt) true;
                    mkEvent (CallStop tt) true] <= 1.
Proof.
  exact (interleaved_client_reached_at_most_once (cl := stopFailingClient)
           exampleSpans 0 [OpStart tt; OpShutdown tt; OpShutdown tt]
           (repeat 0 9 ++ repeat 1 3 ++ repeat 2 3 ++ [2] ++ repeat 1 9 ++ repeat 2 3)
           (cfg := mkConfig
                     [Returned None; Returned (Some (errorString "stop failed"));
                      Returned None]
                     (mkSys (at_state Stopped 2)
                            [mkEvent (CallStart tt) true; mkEvent (CallStop tt) true]))
           eq_refl).
Defined.

(** Two concurrent [Shutdown] calls on a started exporter whose client
    fails to stop.  Both read [started] as true; the second finds the stop
    gate taken and is blocked while the first is inside it; in the end the
    first returns the client's error and the second returns nil. *)
Lemma concurrent_Shutdown_returns_nil :
  exec (cl := stopFailingClient) exampleSpans
       (repeat 0 9 ++ repeat 1 3 ++ repeat 2 3 ++ [2] ++ repeat 1 4)
       (start_config 0 [OpStart tt; OpShutdown tt; OpShutdown tt])
  = Some (mkConfig
            [Returned None; ShutdownMuLock (Some (errorString "stop failed"));
             ShutdownOnceLock tt]
            (mkSys (mkExporter 2 sync.zeroRWMutex true
                               (sync.mkOnce true sync.zeroMutex)
                               (sync.mkOnce false (sync.mkMutex true)))
                   [mkEvent (CallStart tt) true; mkEvent (CallStop tt) true]))
  /\ exec (cl := stopFailingClient) exampleSpans
          (repeat 0 9 ++ repeat 1 3 ++ repeat 2 3 ++ [2] ++ repeat 1 4 ++ [2])
          (start_config 0 [OpStart tt; OpShutdown tt; OpShutdown tt])
     = None
  /\ exec (cl := stopFailingClient) exampleSpans
          (repeat 0 9 ++ repeat 1 3 ++ repeat 2 3 ++ [2] ++ repeat 1 9 ++ repeat 2 3)
          (start_config 0 [OpStart tt; OpShutdown tt; OpShutdown tt])
     = Some (mkConfig
               [Returned None; Returned (Some (errorString "stop failed"));
                Returned None]
               (mkSys (at_state Stopped 2)
                      [mkEvent (CallStart tt) true; mkEvent (CallStop tt) true])).
Proof. repeat split. Qed.

(** ** Locks, progress and results at concrete inputs *)


Lemma interleaving_is_bounded_witness :
  List.length exampleSchedule
  <= 9 * count is_OpStart exampleOps + count is_OpExportSpans exampleOps
     + 12 * count is_OpShutdown exampleOps.
Proof.
  exact (interleaving_is_bounded (cl := stopFailingClient) exampleSpans 0 exampleOps
           exampleSchedule exampleFinal eq_refl).
Defined.


Lemma one_caller_gets_the_result_witness :
  count2 (returned_standing_out StartGate) exampleOps (threads exampleFinal)
    <= count is_Start (calls (shared exampleFinal))
  /\ count is_Start (calls (shared exampleFinal)) <= 1
  /\ count2 (returned_standing_out StopGate) exampleOps (threads exampleFinal)
     <= count is_Stop (calls (shared exampleFinal))
  /\ count is_Stop (calls (shared exampleFinal)) <= 1.
Proof.
  exact (one_caller_gets_the_result (cl := stopFailingClient) exampleSpans 0 exampleOps
           exampleSchedule exampleFinal eq_refl).
Defined.

Lemma NewExporter_is_started_witness :
  Start (cl := okClient) (WireRecord := nat) tt
        (mkSys (at_state Running 1) [mkEvent (CallStart tt) true])
  = Some (Some errAlreadyStarted,
          mkSys (at_state Running 1) [mkEvent (CallStart tt) true])
  /\ exists s',
       Shutdown (cl := okClient) tt
                (mkSys (at_state Running 1) [mkEvent (CallStart tt) true])
       = Some (None, s')
       /\ calls s' = [mkEvent (CallStart tt) true; mkEvent (CallStop tt) true].
Proof.
  exact (NewExporter_is_started (cl := okClient) tt 0
           (e := at_state Running 1) (evs := [mkEvent (CallStart tt) true]) eq_refl tt).
Defined.

Lemma every_batch_uploaded_once_witness :
  count is_UploadTraces [mkEvent (Ctx := unit) (CallUploadTraces tt [7]) false]
  + count (upload_pending exampleSpans)
          [StartOnceLock tt; Returned None; ExportSpansCall tt [None]]
  = 1.
Proof.
  exact (every_batch_uploaded_once (cl := okClient) exampleSpans 0
           [OpStart tt; OpExportSpans tt [Some 7]; OpExportSpans tt [None]] [1; 0]
           (mkConfig [StartOnceLock tt; Returned None; ExportSpansCall tt [None]]
                     (mkSys (at_state Idle 1)
                            [mkEvent (CallUploadTraces tt [7]) false]))
           eq_refl).
Defined.

Lemma some_Start_reaches_the_client_witness :
  count is_Start (calls (shared exampleFinal)) = 1.
Proof.
  exact (some_Start_reaches_the_client (cl := stopFailingClient) exampleSpans 0
           exampleOps exampleSchedule exampleFinal eq_refl eq_refl eq_refl).
Defined.
